(** * Thumbnail cache of tubearchivist: a shallow embedding

    The development follows [home/src/download/thumbnails.py]:
    [ThumbManagerBase] (bounded-retry image fetch and fallback lookup),
    [ThumbManager] (cache paths, download, crop and delete of artwork),
    [ValidatorCallback] and [ThumbValidator] (bulk backfill).

    Python objects become records, the mutable handler and the outside
    world (cache files, the request log, the sleep log, standard output)
    are threaded through a state-and-exception monad, and a raised Python
    exception is the [Raise] result. The blurred preview
    ([get_vid_base64_blur]) takes its calls into PIL as a parameter, and
    the embedding of thumbnails into media files ([ThumbFilesystem])
    runs over the disk together with the cover tags of the media
    files. *)

From Stdlib Require Import ZArith QArith Qround Lqa Ascii String SpecFloat.
From stdpp Require Import base gmap strings pretty.

Local Open Scope string_scope.
Local Open Scope list_scope.
Local Open Scope Z_scope.

(** ** Exceptions and the state monad *)

Inductive Exn :=
| AttributeError      (* attribute access on the [False] sentinel *)
| IndexError          (* [item_id[0]] on an empty id *)
| KeyError            (* [default_map[item_type]] on an unknown kind *)
| ZeroDivisionError   (* [width / height] with a zero height *)
| FileNotFoundError   (* [Image.open] on a missing file *)
| ValueError          (* writing an empty image as JPEG *)
| TypeError           (* a url argument of the wrong shape *)
| DecompressionBombError.   (* [crop] asked for more pixels than PIL allows *)

Inductive Result (A : Type) :=
| Ok (a : A)
| Raise (e : Exn).
Arguments Ok {A} a.
Arguments Raise {A} e.

Definition M (S A : Type) : Type := S -> Result A * S.

Definition ret {S A} (a : A) : M S A := fun s => (Ok a, s).

Definition bind {S A B} (m : M S A) (k : A -> M S B) : M S B :=
  fun s => match m s with
           | (Ok a, s') => k a s'
           | (Raise e, s') => (Raise e, s')
           end.

Definition raise {S A} (e : Exn) : M S A := fun s => (Raise e, s).
Definition gets {S A} (f : S -> A) : M S A := fun s => (Ok (f s), s).
Definition modify {S} (f : S -> S) : M S unit := fun s => (Ok tt, f s).

Declare Scope py_scope.
Delimit Scope py_scope with py.
Notation "x <- c1 ;; c2" := (bind c1 (fun x => c2))
  (at level 100, c1 at next level, right associativity) : py_scope.
Notation "c1 ;; c2" := (bind c1 (fun _ => c2))
  (at level 100, right associativity) : py_scope.
Local Open Scope py_scope.

(** ** Data *)

(** A decoded bitmap (PIL [Image]): its [size], its [mode] and an
    identifier of the pixel data it was decoded from; pixels themselves
    are not followed, so [crop] and [convert] keep the identifier. *)
Record Image := mkImage {
  width : Z;
  height : Z;
  mode : string;
  bitmap : N
}.

(** What [download_raw] returns: an image, or the [False] sentinel. *)
Inductive Fetched :=
| Img (img : Image)
| SentinelFalse.

(** One call of [requests.get(url, stream=True, timeout=5)]: it raises a
    [RequestException] (timeout, connection error), or yields a response
    with a status code and a raw body; [raw = None] is a body that
    [Image.open] rejects with [UnidentifiedImageError]. *)
Inductive Attempt :=
| RequestException
| Response (status_code : Z) (raw : option Image).

(** A hit of the search index: a dict whose ["_source"] dict holds the
    requested fields. Field values are strings here; a url that the index
    holds as false or null is the empty string, which [not url] treats
    alike. *)
Record Hit := mkHit {
  _source : gmap string string
}.

(** What the handlers find around them: the class attributes read from
    [AppConfig], the behaviour of the network (the first argument of [net]
    is the number of requests sent before this one) and the pages that a
    scan of a named index yields. *)
Record Env := mkEnv {
  CACHE_DIR : string;
  APP_ROOT : string;
  net : nat -> string -> Attempt;
  scan : string -> list (list Hit)
}.

(** A [ThumbManager] instance; [fallback = None] is the default [False]. *)
Record ThumbManager := mkThumbManager {
  item_id : string;
  item_type : string;
  fallback : option string
}.

(** The world outside the handler. The disk is flat: a path names an
    image file or a directory made by [os.makedirs]; the directories that
    files are written into are taken to be there, and a clash between a
    file and a directory of one name is not followed. *)
Record World := mkWorld {
  files : gmap string Image;   (* image files on disk, by path *)
  dirs : gset string;          (* directories made by [os.makedirs] *)
  requests : list string;      (* urls of the HTTP requests sent, oldest first *)
  sleeps : list Z;             (* arguments of [sleep], oldest first *)
  stdout : list string         (* printed lines, oldest first *)
}.

Record State := mkState {
  self : ThumbManager;
  world : World
}.

(** ** Strings and paths *)

(** A Python string is read as the string of its bytes. [str.lower] and
    [s[0]] below are those of ASCII text: on an id whose first character
    is not ASCII, Python takes and lowers the whole first character,
    which these definitions do not follow; the statements that spell
    out the layout of a video's path or name its folder ask for an ASCII
    first character. *)

(** [str.lower] on ASCII text. *)
Definition ascii_lower (c : ascii) : ascii :=
  let n := nat_of_ascii c in
  if ((65 <=? n) && (n <=? 90))%nat then ascii_of_nat (n + 32) else c.

Fixpoint str_lower (s : string) : string :=
  match s with
  | EmptyString => EmptyString
  | String c s' => String (ascii_lower c) (str_lower s')
  end.

(** [s[0]] *)
Definition first_char {S} (s : string) : M S string :=
  match s with
  | EmptyString => raise IndexError
  | String c _ => ret (String c EmptyString)
  end.

Definition startswith_sep (s : string) : bool :=
  match s with
  | String "/" _ => true
  | _ => false
  end.

Fixpoint endswith_sep (s : string) : bool :=
  match s with
  | EmptyString => false
  | String c EmptyString => bool_decide (c = "/"%char)
  | String _ s' => endswith_sep s'
  end.

(** [os.path.join(a, b)] of [posixpath]. *)
Definition path_join (a b : string) : string :=
  if startswith_sep b then b
  else if bool_decide (a = "") || endswith_sep a then a +:+ b
  else a +:+ "/" +:+ b.

Definition VIDEO_DIR (E : Env) : string := path_join (CACHE_DIR E) "videos".
Definition CHANNEL_DIR (E : Env) : string := path_join (CACHE_DIR E) "channels".
Definition PLAYLIST_DIR (E : Env) : string := path_join (CACHE_DIR E) "playlists".

(** ** Primitive effects *)

Definition on_world {A} (m : M World A) : M State A :=
  fun s => match m (world s) with
           | (r, w) => (r, mkState (self s) w)
           end.

Definition set_item_type (t : string) : M State unit :=
  modify (fun s => mkState (mkThumbManager (item_id (self s)) t (fallback (self s)))
                           (world s)).

Definition print (line : string) : M World unit :=
  modify (fun w => mkWorld (files w) (dirs w) (requests w) (sleeps w)
                           (stdout w ++ [line])).

Definition sleep (t : Z) : M World unit :=
  modify (fun w => mkWorld (files w) (dirs w) (requests w) (sleeps w ++ [t])
                           (stdout w)).

Definition requests_get (E : Env) (url : string) : M World Attempt :=
  fun w => (Ok (net E (length (requests w)) url),
            mkWorld (files w) (dirs w) (requests w ++ [url]) (sleeps w) (stdout w)).

(** [os.makedirs(path, exist_ok=True)]: [dirs] gains the directory asked
    for. The missing parents that [os.makedirs] makes on the way are not
    recorded, and no statement below says that they are not made. *)
Definition makedirs (path : string) : M World unit :=
  modify (fun w => mkWorld (files w) (dirs w ∪ {[path]}) (requests w) (sleeps w)
                           (stdout w)).

(** [os.path.exists(path)] *)
Definition path_exists (path : string) (w : World) : bool :=
  bool_decide (is_Some (files w !! path)) || bool_decide (path ∈ dirs w).

(** [os.remove(path)] of a path that exists. A directory at the path,
    which [os.remove] refuses, is not told apart from a file here; the
    statements on deleting ask for a target that is no directory, or
    speak of the state only. *)
Definition remove (path : string) : M World unit :=
  modify (fun w => mkWorld (delete path (files w)) (dirs w) (requests w) (sleeps w)
                           (stdout w)).

(** [Image.open(path)] *)
Definition image_open (path : string) : M World Image :=
  fun w => match files w !! path with
           | Some img => (Ok img, w)
           | None => (Raise FileNotFoundError, w)
           end.

(** [img.convert("RGB")] *)
Definition convert_rgb (img : Image) : Image :=
  mkImage (width img) (height img) "RGB" (bitmap img).

(** [img.save(path)] with a [.jpg] path: the JPEG writer refuses an empty
    image; otherwise the file is written. The folder of the path is
    taken to be there and the image to fit a JPEG file; a statement that
    says a download returns asks for both, the others start from a
    download that has returned. *)
Definition save (img : Image) (path : string) : M World unit :=
  if (width img =? 0) || (height img =? 0) then raise ValueError
  else modify (fun w => mkWorld (<[path := img]> (files w)) (dirs w) (requests w)
                                (sleeps w) (stdout w)).

(** Attribute access on the value returned by [download_raw]. *)
Definition as_image {S} (r : Fetched) : M S Image :=
  match r with
  | Img img => ret img
  | SentinelFalse => raise AttributeError
  end.

(** ** ThumbManagerBase *)

(** Truth value of [self.fallback] and of a url. *)
Definition truthy (s : option string) : bool :=
  match s with
  | None => false
  | Some EmptyString => false
  | Some _ => true
  end.

Definition default_map (E : Env) : gmap string string :=
  let app_root := APP_ROOT E in
  <["video" := path_join app_root "static/img/default-video-thumb.jpg"]>
  (<["playlist" := path_join app_root "static/img/default-video-thumb.jpg"]>
  (<["icon" := path_join app_root "static/img/default-channel-icon.jpg"]>
  (<["banner" := path_join app_root "static/img/default-channel-banner.jpg"]> ∅))).

Definition get_fallback (E : Env) : M State Image :=
  fb <- gets (fun s => fallback (self s)) ;;
  if truthy fb then on_world (image_open (default "" fb))
  else
    kind <- gets (fun s => item_type (self s)) ;;
    match default_map E !! kind with
    | Some path => on_world (image_open path)
    | None => raise KeyError
    end.

(** [response.ok]: the status is no 4xx or 5xx. *)
Definition response_ok (status_code : Z) : bool :=
  negb ((400 <=? status_code) && (status_code <? 600)).

(** [range(n)] *)
Definition range (n : nat) : list Z := map Z.of_nat (seq 0 n).

(** The [for i in range(3)] loop of [download_raw], from the remaining
    values of [i]; running out of values is the [return False]. *)
Fixpoint download_raw_loop (E : Env) (url : string) (todo : list Z) : M State Fetched :=
  match todo with
  | [] => ret SentinelFalse
  | i :: todo' =>
      response <- on_world (requests_get E url) ;;
      match response with
      | Response status_code raw =>
          if response_ok status_code then
            match raw with
            | Some img => ret (Img img)
            | None =>
                on_world (print ("failed to open thumbnail: " +:+ url)) ;;
                img <- get_fallback E ;;
                ret (Img img)
            end
          else if status_code =? 404 then
            img <- get_fallback E ;;
            ret (Img img)
          else download_raw_loop E url todo'
      | RequestException =>
          id <- gets (fun s => item_id (self s)) ;;
          on_world (print (id +:+ ": retry thumbnail download " +:+ url)) ;;
          on_world (sleep ((i + 1) ^ i)) ;;
          download_raw_loop E url todo'
      end
  end.

Definition download_raw (E : Env) (url : option string) : M State Fetched :=
  if negb (truthy url) then
    img <- get_fallback E ;;
    ret (Img img)
  else download_raw_loop E (default "" url) (range 3).

(** ** ThumbManager *)

(** Python's [round] of a float holding the rational [q]: the nearest
    integer, a tie going to the even one. *)
Definition py_round (q : Q) : Z :=
  let f := Qfloor q in
  match (q - inject_Z f ?= 1 # 2)%Q with
  | Lt => f
  | Gt => f + 1
  | Eq => if Z.even f then f else f + 1
  end.

(** [PIL.Image.MAX_IMAGE_PIXELS] *)
Definition MAX_IMAGE_PIXELS : Z := 89478485.

(** [img.crop((left, upper, right, lower))]: PIL rounds the four
    coordinates, refuses a region of more than twice [MAX_IMAGE_PIXELS]
    pixels with a [DecompressionBombError], and cuts (or pads) the
    region between them. *)
Definition crop {S} (img : Image) (box : Q * Q * Q * Q) : M S Image :=
  let '(x_left, y_upper, x_right, y_lower) := box in
  let x0 := py_round x_left in
  let y0 := py_round y_upper in
  let x1 := py_round x_right in
  let y1 := py_round y_lower in
  let pixels := Z.max 1 (Z.abs (x1 - x0)) * Z.max 1 (Z.abs (y1 - y0)) in
  if 2 * MAX_IMAGE_PIXELS <? pixels then raise DecompressionBombError
  else ret (mkImage (Z.max 0 (x1 - x0)) (Z.max 0 (y1 - y0)) (mode img) (bitmap img)).

Definition vid_thumb_path (E : Env) (absolute create_folder : bool) : M State string :=
  id <- gets (fun s => item_id (self s)) ;;
  c <- first_char id ;;
  let folder_name := str_lower c in
  let folder_path := path_join "videos" folder_name in
  let thumb_path := path_join folder_path (id +:+ ".jpg") in
  let thumb_path :=
    if absolute then path_join (CACHE_DIR E) thumb_path else thumb_path in
  (if create_folder
   then on_world (makedirs (path_join (CACHE_DIR E) folder_path))
   else ret tt) ;;
  ret thumb_path.

(** Image sizes are integers and Python's [/] on them is float division.
    For the sizes an image can have, [width / 16 * 9],
    [height - new_height], [/ 2] and [height - offset] are multiples of
    1/32 of moderate size, hence exact in binary64, and [width / height]
    rounds to the same float as [16 / 9] only when the two ratios are
    equal; so the floats are read as the rationals they hold.
    [video_crop_f64] further down computes the same lines in binary64,
    for comparison on sample sizes. *)
Definition download_video_thumb (E : Env) (url : option string)
    (skip_existing : bool) : M State unit :=
  id <- gets (fun s => item_id (self s)) ;;
  c <- first_char id ;;
  let folder_path := path_join (VIDEO_DIR E) (str_lower c) in
  thumb_path <- vid_thumb_path E true false ;;
  present <- gets (fun s => path_exists thumb_path (world s)) ;;
  if skip_existing && present then ret tt
  else
    on_world (makedirs folder_path) ;;
    fetched <- download_raw E url ;;
    img_raw <- as_image fetched ;;
    let w := inject_Z (width img_raw) in
    let h := inject_Z (height img_raw) in
    if height img_raw =? 0 then raise ZeroDivisionError
    else
      img_raw <-
        (if negb (Qeq_bool (w / h) (16 / 9)) then
           let new_height := (w / 16 * 9)%Q in
           let offset := ((h - new_height) / 2)%Q in
           crop img_raw (0%Q, offset, w, (h - offset)%Q)
         else ret img_raw) ;;
      on_world (save (convert_rgb img_raw) thumb_path).

Definition _download_channel_thumb (E : Env) (channel_thumb : option string)
    (skip_existing : bool) : M State unit :=
  id <- gets (fun s => item_id (self s)) ;;
  let thumb_path := path_join (CHANNEL_DIR E) (id +:+ "_thumb.jpg") in
  set_item_type "icon" ;;
  present <- gets (fun s => path_exists thumb_path (world s)) ;;
  if skip_existing && present then ret tt
  else
    fetched <- download_raw E channel_thumb ;;
    img_raw <- as_image fetched ;;
    on_world (save (convert_rgb img_raw) thumb_path).

Definition _download_channel_banner (E : Env) (channel_banner : option string)
    (skip_existing : bool) : M State unit :=
  id <- gets (fun s => item_id (self s)) ;;
  let banner_path := path_join (CHANNEL_DIR E) (id +:+ "_banner.jpg") in
  set_item_type "banner" ;;
  present <- gets (fun s => path_exists banner_path (world s)) ;;
  if skip_existing && present then ret tt
  else
    fetched <- download_raw E channel_banner ;;
    img_raw <- as_image fetched ;;
    on_world (save (convert_rgb img_raw) banner_path).

Definition download_channel_art (E : Env) (urls : option string * option string)
    (skip_existing : bool) : M State unit :=
  let '(channel_thumb, channel_banner) := urls in
  _download_channel_thumb E channel_thumb skip_existing ;;
  _download_channel_banner E channel_banner skip_existing.

Definition download_playlist_thumb (E : Env) (url : option string)
    (skip_existing : bool) : M State unit :=
  id <- gets (fun s => item_id (self s)) ;;
  let thumb_path := path_join (PLAYLIST_DIR E) (id +:+ ".jpg") in
  present <- gets (fun s => path_exists thumb_path (world s)) ;;
  if skip_existing && present then ret tt
  else
    fetched <- download_raw E url ;;
    img_raw <- as_image fetched ;;
    on_world (save (convert_rgb img_raw) thumb_path).

(** [if os.path.exists(path): os.remove(path)] *)
Definition remove_if_exists (path : string) : M State unit :=
  present <- gets (fun s => path_exists path (world s)) ;;
  if present then on_world (remove path) else ret tt.

Definition delete_video_thumb (E : Env) : M State unit :=
  thumb_path <- vid_thumb_path E false false ;;
  let to_delete := path_join (CACHE_DIR E) thumb_path in
  remove_if_exists to_delete.

Definition delete_channel_thumb (E : Env) : M State unit :=
  id <- gets (fun s => item_id (self s)) ;;
  let thumb := path_join (CHANNEL_DIR E) (id +:+ "_thumb.jpg") in
  let banner := path_join (CHANNEL_DIR E) (id +:+ "_banner.jpg") in
  remove_if_exists thumb ;;
  remove_if_exists banner.

Definition delete_playlist_thumb (E : Env) : M State unit :=
  id <- gets (fun s => item_id (self s)) ;;
  let thumb_path := path_join (PLAYLIST_DIR E) (id +:+ ".jpg") in
  remove_if_exists thumb_path.

(** The argument of [download]: one url, or the pair of channel urls.
    A call with the other shape is outside what the handlers are written
    for and is not followed: it ends here with a [TypeError], which
    stands for whatever Python raises on it (a [ValueError] when a
    string is unpacked as the pair, for one). No statement is about
    such a call. *)
Inductive Urls :=
| OneUrl (url : option string)
| ChannelUrls (urls : option string * option string).

Definition download (E : Env) (url : Urls) : M State unit :=
  id <- gets (fun s => item_id (self s)) ;;
  kind <- gets (fun s => item_type (self s)) ;;
  on_world (print (id +:+ ": download " +:+ kind +:+ " thumbnail")) ;;
  if bool_decide (kind = "video") then
    match url with
    | OneUrl u => download_video_thumb E u false
    | ChannelUrls _ => raise TypeError
    end
  else if bool_decide (kind = "channel") then
    match url with
    | ChannelUrls us => download_channel_art E us false
    | OneUrl _ => raise TypeError
    end
  else if bool_decide (kind = "playlist") then
    match url with
    | OneUrl u => download_playlist_thumb E u false
    | ChannelUrls _ => raise TypeError
    end
  else ret tt.

Definition delete (E : Env) : M State unit :=
  id <- gets (fun s => item_id (self s)) ;;
  kind <- gets (fun s => item_type (self s)) ;;
  on_world (print (id +:+ ": delete " +:+ kind +:+ " thumbnail")) ;;
  if bool_decide (kind = "video") then delete_video_thumb E
  else if bool_decide (kind = "channel") then delete_channel_thumb E
  else if bool_decide (kind = "playlist") then delete_playlist_thumb E
  else ret tt.

(** ** ValidatorCallback and ThumbValidator *)

(** [d[key]] on a dict *)
Definition getitem {S} (d : gmap string string) (key : string) : M S string :=
  match d !! key with
  | Some v => ret v
  | None => raise KeyError
  end.

(** [for x in xs: body(x)] *)
Fixpoint for_each {S A} (xs : list A) (body : A -> M S unit) : M S unit :=
  match xs with
  | [] => ret tt
  | x :: xs' => body x ;; for_each xs' body
  end.

(** [ThumbManager(item_id)] followed by one method call on the new
    handler, which is dropped afterwards. *)
Definition with_handler {A} (id : string) (method : M State A) : M World A :=
  fun w => match method (mkState (mkThumbManager id "video" None) w) with
           | (r, s) => (r, world s)
           end.

Record ValidatorCallback := mkValidatorCallback {
  source : list Hit;
  index_name : string
}.

Definition _validate_videos (E : Env) (cb : ValidatorCallback) : M World unit :=
  for_each (source cb) (fun video =>
    url <- getitem (_source video) "vid_thumb_url" ;;
    id <- getitem (_source video) "youtube_id" ;;
    with_handler id (download_video_thumb E (Some url) true)).

Definition _validate_channels (E : Env) (cb : ValidatorCallback) : M World unit :=
  for_each (source cb) (fun channel =>
    thumb_url <- getitem (_source channel) "channel_thumb_url" ;;
    banner_url <- getitem (_source channel) "channel_banner_url" ;;
    let urls := (Some thumb_url, Some banner_url) in
    id <- getitem (_source channel) "channel_id" ;;
    with_handler id (download_channel_art E urls true)).

Definition _validate_playlists (E : Env) (cb : ValidatorCallback) : M World unit :=
  for_each (source cb) (fun playlist =>
    url <- getitem (_source playlist) "playlist_thumbnail" ;;
    id <- getitem (_source playlist) "playlist_id" ;;
    with_handler id (download_playlist_thumb E (Some url) true)).

Definition run (E : Env) (cb : ValidatorCallback) : M World unit :=
  print (index_name cb +:+ ": validate artwork") ;;
  if bool_decide (index_name cb = "ta_video") then _validate_videos E cb
  else if bool_decide (index_name cb = "ta_channel") then _validate_channels E cb
  else if bool_decide (index_name cb = "ta_playlist") then _validate_playlists E cb
  else ret tt.

(** Modelled from the spec: [IndexPaginate(index, data, callback=...)
    .get_results()] of [home/src/es/connect.py], which is not among the
    sources. The spec has the validator issue a filtered, sorted,
    paginated scan and, for each page of results, hand the page to the
    callback; the pages of the scan are [scan E index]. *)
Definition paginate_get_results (E : Env) (index : string)
    (callback : list Hit -> string -> ValidatorCallback) : M World unit :=
  for_each (scan E index) (fun page => run E (callback page index)).

Definition download_missing_videos (E : Env) : M World unit :=
  paginate_get_results E "ta_video" mkValidatorCallback.

Definition download_missing_channels (E : Env) : M World unit :=
  paginate_get_results E "ta_channel" mkValidatorCallback.

Definition download_missing_playlists (E : Env) : M World unit :=
  paginate_get_results E "ta_playlist" mkValidatorCallback.

Definition download_missing (E : Env) : M World unit :=
  download_missing_videos E ;;
  download_missing_channels E ;;
  download_missing_playlists E.

(** ** Vocabulary of the statements *)

(** [w'] has the files and directories of [w]. *)
Definition same_disk (w w' : World) : Prop :=
  files w' = files w /\ dirs w' = dirs w.

(** Every path that exists in [w] exists in [w']. *)
Definition grows (w w' : World) : Prop :=
  forall p, path_exists p w = true -> path_exists p w' = true.

(** [w'] is [w] up to standard output: no file, directory, request or
    sleep was added or removed. *)
Definition quiet (w w' : World) : Prop :=
  files w' = files w /\ dirs w' = dirs w /\ requests w' = requests w
  /\ sleeps w' = sleeps w.

(** A step of a validation pass never removes a cache entry ... *)
Definition additive (f : M World unit) : Prop :=
  forall w r w', f w = (r, w') -> grows w w'.

(** ... and once it has gone through, it goes through quietly in every
    world that holds at least the same entries. *)
Definition settles (f : M World unit) : Prop :=
  forall w w', f w = (Ok tt, w') ->
  forall v, grows w' v -> exists v', f v = (Ok tt, v') /\ quiet v v'.

(** What [download_raw] returns when it hands back [get_fallback()]. *)
Definition fallback_result (r : Result Image) : Result Fetched :=
  match r with
  | Ok img => Ok (Img img)
  | Raise e => Raise e
  end.

Definition log_line (line : string) (w : World) : World :=
  mkWorld (files w) (dirs w) (requests w) (sleeps w) (stdout w ++ [line]).

Definition with_dir (p : string) (w : World) : World :=
  mkWorld (files w) (dirs w ∪ {[p]}) (requests w) (sleeps w) (stdout w).

Definition with_file (p : string) (img : Image) (w : World) : World :=
  mkWorld (<[p := img]> (files w)) (dirs w) (requests w) (sleeps w) (stdout w).

Definition with_kind (kind : string) (h : ThumbManager) : ThumbManager :=
  mkThumbManager (item_id h) kind (fallback h).

(** An ASCII character. *)
Definition is_ascii (c : ascii) : bool := (nat_of_ascii c <? 128)%nat.



(** The number of pixels PIL counts for a size, and the largest width or
    height of a JPEG file. *)
Definition pixels (img : Image) : Z := Z.max 1 (width img) * Z.max 1 (height img).


(** The kinds that [download] and [delete] dispatch on. *)
Definition dispatch_kinds : list string := ["video"; "channel"; "playlist"].

(** The paths the handlers compute, as functions of the id. *)
Definition video_rel_path (id : string) : string :=
  match id with
  | EmptyString => EmptyString
  | String c _ =>
      path_join (path_join "videos" (str_lower (String c EmptyString)))
                (id +:+ ".jpg")
  end.

Definition video_path (E : Env) (id : string) : string :=
  path_join (CACHE_DIR E) (video_rel_path id).

Definition icon_path (E : Env) (id : string) : string :=
  path_join (CHANNEL_DIR E) (id +:+ "_thumb.jpg").

Definition banner_path (E : Env) (id : string) : string :=
  path_join (CHANNEL_DIR E) (id +:+ "_banner.jpg").

Definition playlist_path (E : Env) (id : string) : string :=
  path_join (PLAYLIST_DIR E) (id +:+ ".jpg").

(** ** The crop lines in IEEE binary64

    The same lines of [download_video_thumb] computed on binary64 floats
    ([SpecFloat] with 53 bits of mantissa), to compare with the rational
    reading on sample sizes. *)

Definition f64 (z : Z) : spec_float := binary_normalize 53 1024 z 0 false.

(** The rational a finite float stands for. *)
Definition Q_of_f64 (x : spec_float) : Q :=
  match x with
  | S754_finite s m e => ((if s then -1 else 1) * inject_Z (Zpos m) * 2 ^ e)%Q
  | _ => 0%Q
  end.

Definition video_crop_f64 (img : Image) : Result Image :=
  let w := f64 (width img) in
  let h := f64 (height img) in
  fst ((if negb (SFeqb (SFdiv 53 1024 w h) (SFdiv 53 1024 (f64 16) (f64 9))) then
          let new_height := SFmul 53 1024 (SFdiv 53 1024 w (f64 16)) (f64 9) in
          let offset := SFdiv 53 1024 (SFsub 53 1024 h new_height) (f64 2) in
          crop img (0%Q, Q_of_f64 offset, inject_Z (width img),
                    Q_of_f64 (SFsub 53 1024 h offset))
        else ret img) tt).

(** ** Sample data *)

Definition net_down : nat -> string -> Attempt :=
  fun _ _ => RequestException.

Definition net_serving (img : Image) : nat -> string -> Attempt :=
  fun _ _ => Response 200 (Some img).

Definition net_not_found : nat -> string -> Attempt :=
  fun _ _ => Response 404 None.

Definition icon_url : string := "https://yt3.example/icon.jpg".
Definition banner_url : string := "https://yt3.example/banner.jpg".
Definition thumb_url : string := "https://i.example/vi/dQw4w9WgXcQ/hq.jpg".

Definition thumb_1000x2000 : Image := mkImage 1000 2000 "RGB" 1.
Definition thumb_1600x900 : Image := mkImage 1600 900 "RGB" 2.
Definition stock_image : Image := mkImage 1280 720 "RGB" 3.


(** The icon host is down, every other url serves an image. *)
Definition net_icon_down : nat -> string -> Attempt :=
  fun _ url => if bool_decide (url = icon_url) then RequestException
               else Response 200 (Some thumb_1600x900).

Definition no_index : string -> list (list Hit) := fun _ => [].

Definition small_index : string -> list (list Hit) :=
  fun index =>
    if bool_decide (index = "ta_video") then
      [[mkHit (<["youtube_id" := "dQw4w9WgXcQ"]>
               (<["vid_thumb_url" := thumb_url]> ∅));
        mkHit (<["youtube_id" := "Zx0a"]> (<["vid_thumb_url" := ""]> ∅))]]
    else if bool_decide (index = "ta_channel") then
      [[mkHit (<["channel_id" := "UCabc"]>
               (<["channel_thumb_url" := icon_url]>
               (<["channel_banner_url" := banner_url]> ∅)))]]
    else if bool_decide (index = "ta_playlist") then
      [[mkHit (<["playlist_id" := "PLxyz"]>
               (<["playlist_thumbnail" := thumb_url]> ∅))]]
    else [].

Definition sample_env (network : nat -> string -> Attempt)
    (index : string -> list (list Hit)) : Env :=
  mkEnv "/cache" "/app" network index.

Definition empty_world : World := mkWorld ∅ ∅ [] [] [].

(** A disk that holds the bundled default video thumbnail. *)
Definition stock_world : World :=
  mkWorld {[ "/app/static/img/default-video-thumb.jpg" := stock_image ]} ∅ [] [] [].

Definition video_handler : ThumbManager := mkThumbManager "dQw4w9WgXcQ" "video" None.
Definition channel_handler : ThumbManager := mkThumbManager "UCabc" "channel" None.
Definition playlist_handler : ThumbManager := mkThumbManager "PLxyz" "playlist" None.

(** A banner handler built with an explicit fallback image. *)
Definition banner_handler : ThumbManager :=
  mkThumbManager "UCabc" "banner" (Some "/app/static/img/default-video-thumb.jpg").

(** Every url answers 200 with a body that is no image. *)
Definition net_garbage : nat -> string -> Attempt :=
  fun _ _ => Response 200 None.

(** The thumbnail that [download_video_thumb] writes when the fetch
    yields [img]. *)
Definition saved_thumb (img : Image) : option Image :=
  files (world (snd (download_video_thumb (sample_env (net_serving img) no_index)
                       (Some thumb_url) false
                       (mkState video_handler empty_world))))
  !! "/cache/videos/d/dQw4w9WgXcQ.jpg".

Definition sample_sizes : list (Z * Z) :=
  [(1000, 2000); (1600, 900); (1280, 720); (16, 10); (480, 360); (1920, 1080);
   (1000, 100); (1, 5); (3, 2); (120, 90); (1279, 720); (4096, 2304); (17, 9);
   (640, 480); (1281, 721); (9999, 3)].

(** ** ThumbManager.get_vid_base64_blur *)

(** The calls into PIL and [base64] that [get_vid_base64_blur] makes on
    the opened image: [img.thumbnail(size)], which scales the image down
    in place or fails, [img.filter(ImageFilter.BLUR)], and the base64
    text of the image saved as JPEG. *)
Record Pil := mkPil {
  pil_thumbnail : Image -> Z * Z -> Result Image;
  pil_blur : Image -> Image;
  jpeg_base64 : Image -> string
}.

Definition lift_result {S A} (r : Result A) : M S A := fun s => (r, s).

Definition get_vid_base64_blur (E : Env) (pil : Pil) : M State string :=
  rel_path <- vid_thumb_path E false false ;;
  let file_path := path_join (CACHE_DIR E) rel_path in
  img_raw <- on_world (image_open file_path) ;;
  img_raw <- lift_result
               (pil_thumbnail pil img_raw (width img_raw / 20, height img_raw / 20)) ;;
  let img_blur := pil_blur pil img_raw in
  let img_base64 := jpeg_base64 pil img_blur in
  let data_url := "data:image/jpg;base64," +:+ img_base64 in
  ret data_url.

(** ** ThumbFilesystem *)

Inductive ImageFormat := FORMAT_JPEG | FORMAT_PNG.

(** [MP4Cover(data, imageformat=...)]; the data is the content of an
    image file. *)
Record MP4Cover := mkMP4Cover {
  cover_data : Image;
  imageformat : ImageFormat
}.

(** An entry of the list that [get_thumb_list] builds. *)
Record ThumbEntry := mkThumbEntry {
  media_url : string;
  thumb_path : string
}.

(** The disk together with the media files: each MP4 file, by path, with
    the value of its ["covr"] tag. *)
Record MediaWorld := mkMediaWorld {
  disk : World;
  media : gmap string (list MP4Cover)
}.

(** What [_embed_thumbs] can raise: a Python exception, or mutagen's
    error on a media file it cannot open. *)
Inductive EmbedExn :=
| PyExn (e : Exn)
| MutagenError.

(** The loop of [get_thumb_list] over [pending.all_videos], with the
    list built so far. *)
Fixpoint get_thumb_list_loop (E : Env) (MEDIA_DIR : string)
    (todo : list (gmap string string)) (video_list : list ThumbEntry)
    : M World (list ThumbEntry) :=
  match todo with
  | [] => ret video_list
  | video :: todo' =>
      video_id <- getitem video "youtube_id" ;;
      file <- getitem video "media_url" ;;
      let media_url := path_join MEDIA_DIR file in
      rel_path <- with_handler video_id (vid_thumb_path E false false) ;;
      let thumb_path := path_join (CACHE_DIR E) rel_path in
      get_thumb_list_loop E MEDIA_DIR todo'
        (video_list ++ [mkThumbEntry media_url thumb_path])
  end.

(** Modelled from the spec: [queue.PendingList] of
    [home/src/download/queue.py], which is not among the sources. The
    spec has the embedder start from an external manifest of the known
    media entities (pending and indexed); [all_videos] is that manifest,
    what [pending.all_videos] holds after [get_download()] and
    [get_indexed()]. *)
Definition get_thumb_list (E : Env) (MEDIA_DIR : string)
    (all_videos : list (gmap string string)) : M World (list ThumbEntry) :=
  get_thumb_list_loop E MEDIA_DIR all_videos [].

(** The loop of [_embed_thumbs]: [total] is [len(video_list)]. *)
Fixpoint _embed_thumbs_loop (total counter : nat) (todo : list ThumbEntry)
    (mw : MediaWorld) : option EmbedExn * MediaWorld :=
  match todo with
  | [] => (None, mw)
  | video :: todo' =>
      match media mw !! media_url video with
      | None => (Some MutagenError, mw)
      | Some _ =>
          match files (disk mw) !! thumb_path video with
          | None => (Some (PyExn FileNotFoundError), mw)
          | Some data =>
              let covr := [mkMP4Cover data FORMAT_JPEG] in
              let saved := <[media_url video := covr]> (media mw) in
              let out :=
                if (counter mod 50 =? 0)%nat then
                  snd (print ("thumbnail write progress " +:+ pretty counter
                              +:+ "/" +:+ pretty total) (disk mw))
                else disk mw in
              _embed_thumbs_loop total (counter + 1) todo' (mkMediaWorld out saved)
          end
      end
  end.

Definition _embed_thumbs (video_list : list ThumbEntry) (mw : MediaWorld)
    : option EmbedExn * MediaWorld :=
  _embed_thumbs_loop (length video_list) 1 video_list mw.

Definition sync (E : Env) (MEDIA_DIR : string)
    (all_videos : list (gmap string string)) (mw : MediaWorld)
    : option EmbedExn * MediaWorld :=
  match get_thumb_list E MEDIA_DIR all_videos (disk mw) with
  | (Ok video_list, w) => _embed_thumbs video_list (mkMediaWorld w (media mw))
  | (Raise e, w) => (Some (PyExn e), mkMediaWorld w (media mw))
  end.

(** ** More vocabulary *)

(** [w] without the file at [p]. *)
Definition without_file (p : string) (w : World) : World :=
  mkWorld (base.delete p (files w)) (dirs w) (requests w) (sleeps w) (stdout w).

(** [w'] has the files of [w] at every path outside [ps]. *)
Definition files_agree_except (ps : list string) (w w' : World) : Prop :=
  forall q, q ∉ ps -> files w' !! q = files w !! q.

(** The folder that [download_video_thumb] makes for an id that starts
    with [c]. *)
Definition shard_folder (E : Env) (c : ascii) : string :=
  path_join (VIDEO_DIR E) (str_lower (String c EmptyString)).

(** From [w] to [w'] at most [k] requests were sent, and none was
    forgotten. *)
Definition sends (k : nat) (w w' : World) : Prop :=
  exists l, requests w' = requests w ++ l /\ (length l <= k)%nat.

(** [entry] is what [get_thumb_list] builds for [video]. *)
Definition entry_for (E : Env) (MEDIA_DIR : string) (video : gmap string string)
    (entry : ThumbEntry) : Prop :=
  exists id file,
    video !! "youtube_id" = Some id /\ video !! "media_url" = Some file
    /\ id <> ""
    /\ media_url entry = path_join MEDIA_DIR file
    /\ thumb_path entry = video_path E id.

(** The line that [_embed_thumbs] prints at a multiple of 50. *)
Definition progress_line (total counter : nat) : string :=
  "thumbnail write progress " +:+ pretty counter +:+ "/" +:+ pretty total.

Definition multiple_of_50 (counter : nat) : bool := (counter mod 50 =? 0)%nat.

(** The media file and the thumbnail of an entry are both there. *)
Definition embeddable (mw : MediaWorld) (entry : ThumbEntry) : Prop :=
  is_Some (media mw !! media_url entry)
  /\ is_Some (files (disk mw) !! thumb_path entry).

(** The number of hits that a scan of [index] yields, over all pages. *)
Definition hits (E : Env) (index : string) : nat := length (concat (scan E index)).

(** The line that [delete] prints. *)
Definition delete_line (h : ThumbManager) : string :=
  item_id h +:+ ": delete " +:+ item_type h +:+ " thumbnail".

(** ** More sample data *)

(** Every url answers with a server error. *)
Definition net_server_error : nat -> string -> Attempt :=
  fun _ _ => Response 503 None.

(** The first request times out, the later ones are served. *)
Definition net_flaky : nat -> string -> Attempt :=
  fun n _ => if (n <? 1)%nat then RequestException
             else Response 200 (Some thumb_1600x900).

Definition nameless_handler : ThumbManager := mkThumbManager "" "video" None.

(** A disk that holds one cached file of each kind. *)
Definition cached_world : World :=
  mkWorld
    (<["/cache/videos/d/dQw4w9WgXcQ.jpg" := thumb_1600x900]>
     (<["/cache/channels/UCabc_thumb.jpg" := stock_image]>
     (<["/cache/channels/UCabc_banner.jpg" := stock_image]>
     (<["/cache/playlists/PLxyz.jpg" := stock_image]> ∅))))
    ∅ [] [] [].

(** A stand-in for PIL: the thumbnail has the requested size, the blur
    keeps the image, and the encoded text only tells the size. *)
Definition sample_pil : Pil :=
  mkPil (fun img size => Ok (mkImage (fst size) (snd size) (mode img) (bitmap img)))
        (fun img => img)
        (fun img => pretty (width img) +:+ "x" +:+ pretty (height img)).

Definition good_hit : Hit :=
  mkHit (<["youtube_id" := "dQw4w9WgXcQ"]> (<["vid_thumb_url" := thumb_url]> ∅)).

(** A hit without its id field. *)
Definition broken_hit : Hit := mkHit (<["vid_thumb_url" := thumb_url]> ∅).

Definition sample_manifest : list (gmap string string) :=
  [ <["youtube_id" := "dQw4w9WgXcQ"]> (<["media_url" := "rick/never.mp4"]> ∅);
    <["youtube_id" := "Zx0a"]> (<["media_url" := "zed/clip.mp4"]> ∅) ].

Definition sample_media : MediaWorld :=
  mkMediaWorld
    (mkWorld
       (<["/cache/videos/d/dQw4w9WgXcQ.jpg" := thumb_1600x900]>
        (<["/cache/videos/z/Zx0a.jpg" := stock_image]> ∅))
       ∅ [] [] [])
    (<["/media/rick/never.mp4" := []]>
     (<["/media/zed/clip.mp4" := [mkMP4Cover thumb_1000x2000 FORMAT_PNG]]> ∅)).

Definition sample_entries : list ThumbEntry :=
  [ mkThumbEntry "/media/rick/never.mp4" "/cache/videos/d/dQw4w9WgXcQ.jpg";
    mkThumbEntry "/media/zed/clip.mp4" "/cache/videos/z/Zx0a.jpg" ].

(** * Properties *)

Ltac munfold :=
  unfold bind, ret, raise, gets, modify, on_world, as_image, set_item_type,
    print, sleep, requests_get, makedirs, image_open in *.

(** ** The fallback lookup reads and never writes *)

Lemma truthy_nonempty url : url <> "" -> truthy (Some url) = true.
Proof. destruct url; [congruence|reflexivity]. Qed.

Lemma get_fallback_state E s r s' : get_fallback E s = (r, s') -> s' = s.
Proof.
  destruct s as [h w]. unfold get_fallback. munfold. simpl.
  destruct (truthy (fallback h)); simpl.
  - destruct (files w !! _); congruence.
  - destruct (default_map E !! item_type h); simpl; [|congruence].
    destruct (files w !! _); congruence.
Qed.

Lemma get_fallback_files E h w w1 :
  files w1 = files w ->
  fst (get_fallback E (mkState h w1)) = fst (get_fallback E (mkState h w)).
Proof.
  intros Hf. unfold get_fallback. munfold. simpl.
  destruct (truthy (fallback h)); simpl.
  - rewrite Hf. destruct (files w !! _); reflexivity.
  - destruct (default_map E !! item_type h); simpl; [|reflexivity].
    rewrite Hf. destruct (files w !! _); reflexivity.
Qed.

Lemma get_fallback_eq E s :
  get_fallback E s = (fst (get_fallback E s), s).
Proof.
  destruct (get_fallback E s) as [r s'] eqn:H.
  apply get_fallback_state in H. now subst.
Qed.

Lemma bind_get_fallback E s :
  (img <- get_fallback E ;; ret (Img img)) s
  = (fallback_result (fst (get_fallback E s)), s).
Proof.
  unfold bind. rewrite get_fallback_eq.
  destruct (fst (get_fallback E s)); reflexivity.
Qed.

(** ** A fetch leaves the handler and the disk alone *)

Lemma download_raw_loop_disk E url todo h w r s' :
  download_raw_loop E url todo (mkState h w) = (r, s') ->
  self s' = h /\ same_disk w (world s').
Proof.
  revert w. induction todo as [|i todo IH]; intros w; simpl.
  { munfold. intros [= <- <-]. done. }
  munfold. simpl.
  destruct (net E _ url) as [|status raw].
  - intros H. apply IH in H as [? [? ?]]. done.
  - destruct (response_ok status).
    + destruct raw as [img|]; [intros [= <- <-]; done|].
      destruct (get_fallback E _) as [[img|e] s1] eqn:Hfb;
        apply get_fallback_state in Hfb; subst s1; intros [= <- <-]; done.
    + destruct (status =? 404).
      * destruct (get_fallback E _) as [[img|e] s1] eqn:Hfb;
          apply get_fallback_state in Hfb; subst s1; intros [= <- <-]; done.
      * intros H. apply IH in H as [? [? ?]]. done.
Qed.

Lemma download_raw_disk E url h w r s' :
  download_raw E url (mkState h w) = (r, s') ->
  self s' = h /\ same_disk w (world s').
Proof.
  unfold download_raw. destruct (negb (truthy url)).
  - munfold. destruct (get_fallback E _) as [[img|e] s1] eqn:Hfb;
      apply get_fallback_state in Hfb; subst s1; intros [= <- <-]; done.
  - apply download_raw_loop_disk.
Qed.

Section Fetch.
Context (E : Env).

(** C2: for a non-empty url on which every HTTP attempt raises a
    network-level error, [download_raw] sends exactly three requests, all
    to that url, and then returns the [False] sentinel, not an image; the
    handler and the disk are as before. *)
Theorem download_raw_retry_cap h w url :
  url <> "" ->
  (forall n, net E n url = RequestException) ->
  exists w',
    download_raw E (Some url) (mkState h w) = (Ok SentinelFalse, mkState h w')
    /\ requests w' = requests w ++ [url; url; url]
    /\ same_disk w w'.
Proof.
  intros Hurl Hnet. unfold download_raw. rewrite truthy_nonempty by done.
  simpl. munfold. simpl. rewrite !Hnet. simpl.
  eexists. split; [reflexivity|]. simpl. rewrite <- !app_assoc. done.
Qed.

(** C5, amended: when every HTTP attempt fails at the network level, the
    retry with index [i] sleeps [(i + 1) ^ i] time units, so the three
    sleeps are 1, 2, 9, one after each failed attempt; the curve
    [(i + 1) ^ i] is nondecreasing in [i] and never below one unit. *)
Theorem download_raw_backoff h w url :
  url <> "" ->
  (forall n, net E n url = RequestException) ->
  let w' := world (snd (download_raw E (Some url) (mkState h w))) in
  sleeps w' = sleeps w ++ map (fun i => (i + 1) ^ i) (range 3)
  /\ map (fun i => (i + 1) ^ i) (range 3) = [1; 2; 9]
  /\ (forall i j, 0 <= i <= j -> 1 <= (i + 1) ^ i <= (j + 1) ^ j)
  /\ length (sleeps w') = (length (sleeps w) + 3)%nat
  /\ length (requests w') = (length (requests w) + 3)%nat.
Proof.
  intros Hurl Hnet. unfold download_raw. rewrite truthy_nonempty by done.
  simpl. munfold. simpl. rewrite !Hnet. simpl.
  rewrite <- !app_assoc. simpl. split; [done|]. split; [done|].
  split; [|rewrite !length_app; done].
  intros i j Hij. split.
  - pose proof (Z.pow_pos_nonneg (i + 1) i). lia.
  - apply Z.pow_le_mono; lia.
Qed.

(** C8: when the response to a non-empty url is an HTTP 404, or a
    successful one whose body does not decode as an image, [download_raw]
    returns what the fallback lookup returns after that single request:
    no second request and no sleep. The same holds at whatever turn of
    the retry loop such a response arrives. *)
Theorem download_raw_no_retry h w url status raw :
  url <> "" ->
  net E (length (requests w)) url = Response status raw ->
  status = 404 \/ (response_ok status = true /\ raw = None) ->
  (exists w1,
      download_raw E (Some url) (mkState h w)
      = (fallback_result (fst (get_fallback E (mkState h w))), mkState h w1)
      /\ requests w1 = requests w ++ [url]
      /\ sleeps w1 = sleeps w
      /\ same_disk w w1)
  /\ (forall i todo, exists w1,
      download_raw_loop E url (i :: todo) (mkState h w)
      = (fallback_result (fst (get_fallback E (mkState h w))), mkState h w1)
      /\ requests w1 = requests w ++ [url]
      /\ sleeps w1 = sleeps w
      /\ same_disk w w1).
Proof.
  intros Hurl Hnet Hcase.
  assert (forall i todo, exists w1,
      download_raw_loop E url (i :: todo) (mkState h w)
      = (fallback_result (fst (get_fallback E (mkState h w))), mkState h w1)
      /\ requests w1 = requests w ++ [url]
      /\ sleeps w1 = sleeps w
      /\ same_disk w w1) as Hloop.
  { intros i todo. simpl.
    unfold bind at 1. unfold on_world at 1, requests_get. simpl.
    rewrite Hnet. destruct Hcase as [-> | [Hok ->]].
    - simpl. rewrite bind_get_fallback. eexists. split.
      + f_equal. f_equal. apply get_fallback_files. reflexivity.
      + done.
    - rewrite Hok. unfold bind at 1. unfold on_world at 1, print, modify. simpl.
      rewrite bind_get_fallback. eexists. split.
      + f_equal. f_equal. apply get_fallback_files. reflexivity.
      + done. }
  split; [|exact Hloop].
  unfold download_raw. rewrite truthy_nonempty by done. apply Hloop.
Qed.

(** C7: with an absent or empty url, [download_raw] changes nothing (so
    it sends no request) and returns the fallback: for each of the four
    kinds video, icon, banner and playlist the default map has a path, and
    the image stored there is returned; the map has exactly these four
    entries, video and playlist share one; and a handler built with an
    explicit fallback path returns the image stored at that path instead. *)
Theorem fallback_without_url h w url :
  truthy url = false ->
  snd (download_raw E url (mkState h w)) = mkState h w
  /\ (forall kind, kind ∈ ["video"; "icon"; "banner"; "playlist"] ->
      item_type h = kind -> truthy (fallback h) = false ->
      exists path, default_map E !! kind = Some path
        /\ forall img, files w !! path = Some img ->
             fst (download_raw E url (mkState h w)) = Ok (Img img))
  /\ default_map E !! "video" = default_map E !! "playlist"
  /\ dom (default_map E) = {[ "video"; "icon"; "banner"; "playlist" ]}
  /\ (forall path img, fallback h = Some path -> path <> "" ->
      files w !! path = Some img ->
      fst (download_raw E url (mkState h w)) = Ok (Img img)).
Proof.
  intros Hurl. unfold download_raw. rewrite Hurl. simpl.
  rewrite bind_get_fallback. simpl. split; [reflexivity|].
  split; [|split; [|split]].
  - intros kind Hkind Hty Hfb.
    assert (exists path, default_map E !! kind = Some path) as [path Hpath].
    { unfold default_map. set_unfold.
      destruct Hkind as [->|[->|[->|[->|[]]]]]; eexists; reflexivity. }
    exists path. split; [done|]. intros img Himg.
    unfold get_fallback. munfold. simpl. rewrite Hfb. simpl.
    rewrite Hty, Hpath. simpl. rewrite Himg. reflexivity.
  - reflexivity.
  - unfold default_map. rewrite !dom_insert_L, dom_empty_L. set_solver.
  - intros path img Hfb Hne Himg.
    unfold get_fallback. munfold. simpl. rewrite Hfb.
    rewrite truthy_nonempty by done. simpl. rewrite Himg. reflexivity.
Qed.

(** C9, amended: the fallback lookup of a handler without an explicit
    fallback raises [KeyError] for a kind outside the four of the default
    map; [download] and [delete] on a kind outside video, channel and
    playlist print their line and return normally, touching neither the
    handler nor the disk nor the network. *)
Theorem unknown_kind_dispatch h w url :
  (item_type h ∉ dom (default_map E) -> truthy (fallback h) = false ->
   get_fallback E (mkState h w) = (Raise KeyError, mkState h w))
  /\ (item_type h ∉ dispatch_kinds ->
      download E url (mkState h w)
      = (Ok tt, mkState h (log_line (item_id h +:+ ": download " +:+ item_type h
                                       +:+ " thumbnail") w))
      /\ delete E (mkState h w)
      = (Ok tt, mkState h (log_line (item_id h +:+ ": delete " +:+ item_type h
                                       +:+ " thumbnail") w))).
Proof.
  split.
  - intros Hk Hfb. unfold get_fallback. munfold. simpl. rewrite Hfb. simpl.
    apply not_elem_of_dom in Hk. rewrite Hk. reflexivity.
  - intros Hk. unfold dispatch_kinds in Hk. set_unfold.
    unfold download, delete. munfold. simpl.
    rewrite !bool_decide_eq_false_2 by naive_solver. done.
Qed.

End Fetch.

(** ** The cache only grows *)

Lemma grows_refl w : grows w w.
Proof. intros p; done. Qed.

Lemma grows_trans w1 w2 w3 : grows w1 w2 -> grows w2 w3 -> grows w1 w3.
Proof. intros H1 H2 p Hp. auto. Qed.

Lemma same_disk_exists w w' p :
  same_disk w w' -> path_exists p w' = path_exists p w.
Proof. intros [Hf Hd]. unfold path_exists. now rewrite Hf, Hd. Qed.

Lemma same_disk_grows w w' : same_disk w w' -> grows w w'.
Proof. intros H p. now rewrite (same_disk_exists w w' p H). Qed.

Lemma quiet_grows w w' : quiet w w' -> grows w w'.
Proof. intros (Hf & Hd & _). apply same_disk_grows. done. Qed.

Lemma quiet_refl w : quiet w w.
Proof. done. Qed.

Lemma quiet_trans w1 w2 w3 : quiet w1 w2 -> quiet w2 w3 -> quiet w1 w3.
Proof. unfold quiet. intros (?&?&?&?) (?&?&?&?). repeat split; congruence. Qed.

Lemma with_dir_grows p w : grows w (with_dir p w).
Proof.
  intros q. unfold path_exists, with_dir. simpl.
  rewrite !orb_true_iff, !bool_decide_eq_true.
  intros [Hq|Hq]; [left; exact Hq|right]. apply elem_of_union_l, Hq.
Qed.

Lemma crop_state {S} img box (s : S) r s' :
  crop img box s = (r, s') -> s' = s.
Proof.
  unfold crop. destruct box as [[[x_left y_upper] x_right] y_lower].
  destruct (_ <? _); unfold raise, ret; now intros [= <- <-].
Qed.

Lemma crop_or_keep_state {S} (b : bool) img box (s : S) r s' :
  (if b then crop img box else ret img) s = (r, s') -> s' = s.
Proof.
  destruct b; [apply crop_state|]. unfold ret. now intros [= <- <-].
Qed.

(** The crop of [download_video_thumb] either fails or hands on an
    image, in the state it was called in. *)
Ltac crop_step s1 :=
  unfold bind at 1;
  match goal with
  | |- context [(if ?b then crop ?i ?bx else ?keep) s1] =>
      let Hcrop := fresh "Hcrop" in
      let s2 := fresh "s2" in
      destruct ((if b then crop i bx else keep) s1) as [[?img'|?e'] s2] eqn:Hcrop;
      apply (crop_or_keep_state b i bx s1) in Hcrop; subst s2
  end.

Lemma save_spec img p w r w' :
  save img p w = (r, w') ->
  grows w w' /\ (r = Ok tt -> path_exists p w' = true).
Proof.
  unfold save. destruct (_ || _).
  - intros [= <- <-]. split; [apply grows_refl|done].
  - unfold modify. intros [= <- <-]. split.
    + intros q. unfold path_exists. simpl.
      rewrite !orb_true_iff, !bool_decide_eq_true.
      intros [Hq|Hq]; [left|right; done].
      rewrite lookup_insert_is_Some. destruct (decide (p = q)); auto.
    + intros _. unfold path_exists. simpl.
      rewrite lookup_insert_eq. rewrite bool_decide_eq_true_2; [done|eauto].
Qed.

(** The tail shared by the download operations: fetch, then write. *)
Lemma fetch_and_save_spec E url (f : Image -> Image) p h w r s' :
  (fetched <- download_raw E url ;;
   img_raw <- as_image fetched ;;
   on_world (save (f img_raw) p)) (mkState h w) = (r, s') ->
  self s' = h /\ grows w (world s')
  /\ (r = Ok tt -> path_exists p (world s') = true).
Proof.
  unfold bind at 1.
  destruct (download_raw E url _) as [[fetched|e] s1] eqn:Hraw;
    apply download_raw_disk in Hraw as [Hself Hdisk].
  2:{ intros [= <- <-]. split; [done|]. split; [|done].
      now apply same_disk_grows. }
  destruct fetched as [img|]; unfold bind, as_image, ret, raise.
  2:{ intros [= <- <-]. split; [done|]. split; [|done].
      now apply same_disk_grows. }
  unfold on_world.
  destruct (save (f img) p (world s1)) as [r1 w1] eqn:Hsave.
  apply save_spec in Hsave as [Hg Hp]. intros [= <- <-]. simpl.
  split; [done|]. split; [|done].
  eapply grows_trans; [|exact Hg]. now apply same_disk_grows.
Qed.

Section Store.
Context (E : Env).

Lemma vid_thumb_path_eq absolute h w c rest :
  item_id h = String c rest ->
  vid_thumb_path E absolute false (mkState h w)
  = (Ok (if absolute then video_path E (item_id h)
         else video_rel_path (item_id h)),
     mkState h w).
Proof.
  intros Hid. unfold vid_thumb_path, video_path, video_rel_path.
  munfold. simpl. rewrite Hid. reflexivity.
Qed.

Lemma video_thumb_spec url skip h w r s' :
  download_video_thumb E url skip (mkState h w) = (r, s') ->
  self s' = h /\ grows w (world s')
  /\ (r = Ok tt -> item_id h <> ""
      /\ path_exists (video_path E (item_id h)) (world s') = true).
Proof.
  unfold download_video_thumb.
  unfold bind at 1, gets at 1. cbn [self world].
  destruct (item_id h) as [|c rest] eqn:Hid.
  { unfold bind, first_char, raise. intros [= <- <-].
    split; [done|]. split; [apply grows_refl|discriminate]. }
  unfold bind at 1, first_char at 1, ret at 1.
  unfold bind at 1. rewrite (vid_thumb_path_eq true h w c rest Hid).
  unfold bind at 1, gets at 1. cbn [self world]. rewrite Hid.
  destruct (skip && _) eqn:Hskip.
  { intros [= <- <-]. split; [done|]. split; [apply grows_refl|].
    intros _. split; [done|]. apply andb_prop in Hskip as [_ H]. exact H. }
  unfold bind at 1, on_world at 1, makedirs, modify.
  cbn [self world files dirs requests sleeps stdout].
  unfold bind at 1.
  match goal with |- context [download_raw E url (mkState h ?w0)] =>
    change w0 with (with_dir (path_join (VIDEO_DIR E) (str_lower (String c ""))) w)
  end.
  pose proof (with_dir_grows (path_join (VIDEO_DIR E) (str_lower (String c ""))) w)
    as Hg1.
  destruct (download_raw E url _) as [[fetched|e] s1] eqn:Hraw;
    apply download_raw_disk in Hraw as [Hself Hdisk].
  2:{ intros [= <- <-]. split; [done|]. split; [|done].
      eapply grows_trans; [exact Hg1|]. now apply same_disk_grows. }
  destruct fetched as [img|]; unfold bind at 1, as_image, ret, raise.
  2:{ intros [= <- <-]. split; [done|]. split; [|done].
      eapply grows_trans; [exact Hg1|]. now apply same_disk_grows. }
  destruct (height img =? 0).
  { intros [= <- <-]. split; [done|]. split; [|done].
    eapply grows_trans; [exact Hg1|]. now apply same_disk_grows. }
  crop_step s1.
  2:{ intros [= <- <-]. split; [done|]. split; [|done].
    eapply grows_trans; [exact Hg1|]. now apply same_disk_grows. }
  unfold on_world.
  match goal with |- context [save ?i ?p (world s1)] =>
    destruct (save i p (world s1)) as [r1 w2] eqn:Hsave end.
  apply save_spec in Hsave as [Hg Hp]. intros [= <- <-]. simpl.
  split; [done|]. split.
  - eapply grows_trans; [exact Hg1|]. eapply grows_trans; [|exact Hg].
    now apply same_disk_grows.
  - intros Hr. split; [done|]. auto.
Qed.

Lemma channel_thumb_spec url skip h w r s' :
  _download_channel_thumb E url skip (mkState h w) = (r, s') ->
  self s' = with_kind "icon" h /\ grows w (world s')
  /\ (r = Ok tt -> path_exists (icon_path E (item_id h)) (world s') = true).
Proof.
  unfold _download_channel_thumb.
  unfold bind at 1, gets at 1. unfold bind at 1, set_item_type, modify.
  unfold bind at 1, gets at 1. cbn [self world item_id fallback].
  destruct (skip && _) eqn:Hskip.
  - intros [= <- <-]. split; [done|]. split; [apply grows_refl|].
    intros _. apply andb_prop in Hskip as [_ H]. exact H.
  - intros H. apply fetch_and_save_spec in H. exact H.
Qed.

Lemma channel_banner_spec url skip h w r s' :
  _download_channel_banner E url skip (mkState h w) = (r, s') ->
  self s' = with_kind "banner" h /\ grows w (world s')
  /\ (r = Ok tt -> path_exists (banner_path E (item_id h)) (world s') = true).
Proof.
  unfold _download_channel_banner.
  unfold bind at 1, gets at 1. unfold bind at 1, set_item_type, modify.
  unfold bind at 1, gets at 1. cbn [self world item_id fallback].
  destruct (skip && _) eqn:Hskip.
  - intros [= <- <-]. split; [done|]. split; [apply grows_refl|].
    intros _. apply andb_prop in Hskip as [_ H]. exact H.
  - intros H. apply fetch_and_save_spec in H. exact H.
Qed.

Lemma playlist_thumb_spec url skip h w r s' :
  download_playlist_thumb E url skip (mkState h w) = (r, s') ->
  self s' = h /\ grows w (world s')
  /\ (r = Ok tt -> path_exists (playlist_path E (item_id h)) (world s') = true).
Proof.
  unfold download_playlist_thumb.
  unfold bind at 1, gets at 1. unfold bind at 1, gets at 1.
  cbn [self world item_id fallback].
  destruct (skip && _) eqn:Hskip.
  - intros [= <- <-]. split; [done|]. split; [apply grows_refl|].
    intros _. apply andb_prop in Hskip as [_ H]. exact H.
  - intros H. apply fetch_and_save_spec in H. destruct h. exact H.
Qed.

Lemma channel_art_spec urls skip h w r s' :
  download_channel_art E urls skip (mkState h w) = (r, s') ->
  grows w (world s')
  /\ (r = Ok tt ->
      self s' = with_kind "banner" h
      /\ path_exists (icon_path E (item_id h)) (world s') = true
      /\ path_exists (banner_path E (item_id h)) (world s') = true).
Proof.
  destruct urls as [u1 u2]. unfold download_channel_art. unfold bind at 1.
  destruct (_download_channel_thumb E u1 skip _) as [[[]|e] [h1 w1]] eqn:H1;
    apply channel_thumb_spec in H1 as (Hs1 & Hg1 & Hp1); simpl in *.
  2:{ intros [= <- <-]. split; [done|]. discriminate. }
  intros H2. apply channel_banner_spec in H2 as (Hs2 & Hg2 & Hp2).
  split; [eapply grows_trans; eauto|].
  intros ->. subst h1. simpl in *. split; [done|]. split; [|auto].
  apply Hg2. auto.
Qed.

(** *** With [skip_existing], an existing target ends the call at once *)

Lemma video_thumb_skip url h w c rest :
  item_id h = String c rest ->
  path_exists (video_path E (item_id h)) w = true ->
  download_video_thumb E url true (mkState h w) = (Ok tt, mkState h w).
Proof.
  intros Hid Hp. unfold download_video_thumb.
  unfold bind at 1, gets at 1. cbn [self world]. rewrite Hid.
  unfold bind at 1, first_char at 1, ret at 1.
  unfold bind at 1. rewrite (vid_thumb_path_eq true h w c rest Hid).
  unfold bind at 1, gets at 1. cbn [self world]. rewrite Hp. reflexivity.
Qed.

Lemma channel_thumb_skip url h w :
  path_exists (icon_path E (item_id h)) w = true ->
  _download_channel_thumb E url true (mkState h w)
  = (Ok tt, mkState (with_kind "icon" h) w).
Proof.
  intros Hp. unfold _download_channel_thumb. munfold. simpl.
  unfold icon_path in Hp. rewrite Hp. reflexivity.
Qed.

Lemma channel_banner_skip url h w :
  path_exists (banner_path E (item_id h)) w = true ->
  _download_channel_banner E url true (mkState h w)
  = (Ok tt, mkState (with_kind "banner" h) w).
Proof.
  intros Hp. unfold _download_channel_banner. munfold. simpl.
  unfold banner_path in Hp. rewrite Hp. reflexivity.
Qed.

Lemma playlist_thumb_skip url h w :
  path_exists (playlist_path E (item_id h)) w = true ->
  download_playlist_thumb E url true (mkState h w) = (Ok tt, mkState h w).
Proof.
  intros Hp. unfold download_playlist_thumb. munfold. simpl.
  unfold playlist_path in Hp. rewrite Hp. reflexivity.
Qed.


End Store.

(** ** A validation pass, run again *)

Lemma additive_seq (f g : M World unit) :
  additive f -> additive g -> additive (f ;; g).
Proof.
  intros Hf Hg w r w'. unfold bind.
  destruct (f w) as [[[]|e] w1] eqn:H1.
  - intros H2. eapply grows_trans; eauto.
  - intros [= <- <-]. eauto.
Qed.

Lemma settles_seq (f g : M World unit) :
  additive g -> settles f -> settles g -> settles (f ;; g).
Proof.
  intros Ag Sf Sg w w'. unfold bind.
  destruct (f w) as [[[]|e] w1] eqn:H1; [|discriminate].
  intros H2 v Hv.
  destruct (Sf _ _ H1 v) as (v1 & Hf1 & Hq1).
  { eapply grows_trans; [|exact Hv]. eauto. }
  destruct (Sg _ _ H2 v1) as (v2 & Hg2 & Hq2).
  { eapply grows_trans; [exact Hv|]. now apply quiet_grows. }
  exists v2. rewrite Hf1. split; [done|]. eapply quiet_trans; eauto.
Qed.

Lemma additive_ret : additive (ret tt).
Proof. intros w r w' [= <- <-]. apply grows_refl. Qed.

Lemma settles_ret : settles (ret tt).
Proof. intros w w' _ v _. exists v. done. Qed.

Lemma additive_print line : additive (print line).
Proof. intros w r w' [= <- <-]. apply same_disk_grows. done. Qed.

Lemma settles_print line : settles (print line).
Proof. intros w w' _ v _. eexists. split; [reflexivity|]. done. Qed.

Lemma additive_for_each {A} (xs : list A) (body : A -> M World unit) :
  (forall x, additive (body x)) -> additive (for_each xs body).
Proof.
  intros Hb. induction xs as [|x xs IH]; simpl.
  - apply additive_ret.
  - apply additive_seq; auto.
Qed.

Lemma settles_for_each {A} (xs : list A) (body : A -> M World unit) :
  (forall x, additive (body x)) -> (forall x, settles (body x)) ->
  settles (for_each xs body).
Proof.
  intros Ab Sb. induction xs as [|x xs IH]; simpl.
  - apply settles_ret.
  - apply settles_seq; auto using additive_for_each.
Qed.

Lemma additive_getitem d key (k : string -> M World unit) :
  (forall v, additive (k v)) -> additive (v <- getitem d key ;; k v).
Proof.
  intros Hk w r w'. unfold bind, getitem. destruct (d !! key); simpl.
  - apply Hk.
  - intros [= <- <-]. apply grows_refl.
Qed.

Lemma settles_getitem d key (k : string -> M World unit) :
  (forall v, settles (k v)) -> settles (v <- getitem d key ;; k v).
Proof.
  intros Hk w w'. unfold bind, getitem. destruct (d !! key); simpl.
  - apply Hk.
  - discriminate.
Qed.

Section Validator.
Context (E : Env).

Lemma additive_video url id :
  additive (with_handler id (download_video_thumb E url true)).
Proof.
  intros w r w'. unfold with_handler.
  destruct (download_video_thumb E url true _) as [r1 s1] eqn:H.
  intros [= <- <-]. apply video_thumb_spec in H as (_ & Hg & _). exact Hg.
Qed.

Lemma settles_video url id :
  settles (with_handler id (download_video_thumb E url true)).
Proof.
  intros w w'. unfold with_handler.
  destruct (download_video_thumb E url true _) as [r1 s1] eqn:H.
  intros [= -> <-]. apply video_thumb_spec in H as (_ & _ & Hp).
  destruct (Hp eq_refl) as [Hne Hex]. simpl in *.
  intros v Hv. exists v. split; [|apply quiet_refl].
  destruct id as [|c rest]; [done|].
  erewrite video_thumb_skip; [reflexivity|reflexivity|]. simpl. auto.
Qed.

Lemma additive_channel urls id :
  additive (with_handler id (download_channel_art E urls true)).
Proof.
  intros w r w'. unfold with_handler.
  destruct (download_channel_art E urls true _) as [r1 s1] eqn:H.
  intros [= <- <-]. apply channel_art_spec in H as (Hg & _). exact Hg.
Qed.

Lemma settles_channel urls id :
  settles (with_handler id (download_channel_art E urls true)).
Proof.
  intros w w'. unfold with_handler.
  destruct (download_channel_art E urls true _) as [r1 s1] eqn:H.
  intros [= -> <-]. apply channel_art_spec in H as (_ & Hp).
  destruct (Hp eq_refl) as (_ & Hicon & Hbanner). simpl in *.
  intros v Hv. exists v. split; [|apply quiet_refl].
  destruct urls as [u1 u2]. unfold download_channel_art, bind.
  rewrite channel_thumb_skip by (simpl; auto).
  rewrite channel_banner_skip by (simpl; auto). reflexivity.
Qed.

Lemma additive_playlist url id :
  additive (with_handler id (download_playlist_thumb E url true)).
Proof.
  intros w r w'. unfold with_handler.
  destruct (download_playlist_thumb E url true _) as [r1 s1] eqn:H.
  intros [= <- <-]. apply playlist_thumb_spec in H as (_ & Hg & _). exact Hg.
Qed.

Lemma settles_playlist url id :
  settles (with_handler id (download_playlist_thumb E url true)).
Proof.
  intros w w'. unfold with_handler.
  destruct (download_playlist_thumb E url true _) as [r1 s1] eqn:H.
  intros [= -> <-]. apply playlist_thumb_spec in H as (_ & _ & Hp).
  specialize (Hp eq_refl). simpl in *.
  intros v Hv. exists v. split; [|apply quiet_refl].
  rewrite playlist_thumb_skip by (simpl; auto). reflexivity.
Qed.

Lemma additive_run cb : additive (run E cb).
Proof.
  unfold run. apply additive_seq; [apply additive_print|].
  repeat case_bool_decide; try apply additive_ret;
    apply additive_for_each; intros hit;
    repeat (apply additive_getitem; intros ?);
    auto using additive_video, additive_channel, additive_playlist.
Qed.

Lemma settles_run cb : settles (run E cb).
Proof.
  unfold run. apply settles_seq; [|apply settles_print|].
  - repeat case_bool_decide; try apply additive_ret;
      apply additive_for_each; intros hit;
      repeat (apply additive_getitem; intros ?);
      auto using additive_video, additive_channel, additive_playlist.
  - repeat case_bool_decide; try apply settles_ret;
      (apply settles_for_each; intros hit;
       [repeat (apply additive_getitem; intros ?);
        auto using additive_video, additive_channel, additive_playlist
       |repeat (apply settles_getitem; intros ?);
        auto using settles_video, settles_channel, settles_playlist]).
Qed.

Lemma additive_paginate index callback :
  additive (paginate_get_results E index callback).
Proof. apply additive_for_each. intros page. apply additive_run. Qed.

Lemma settles_paginate index callback :
  settles (paginate_get_results E index callback).
Proof.
  apply settles_for_each; intros page; [apply additive_run|apply settles_run].
Qed.

Lemma settles_download_missing : settles (download_missing E).
Proof.
  unfold download_missing, download_missing_videos, download_missing_channels,
    download_missing_playlists.
  repeat first
    [ apply settles_seq | apply additive_seq
    | apply settles_paginate | apply additive_paginate ].
Qed.

(** C3: under [skip_existing=True] each of the four download operations,
    called when its target path exists, returns at once and leaves the
    world as it was: no request, no file touched (the two channel steps
    only set [item_type]). Consequently, when the callback has gone
    through a page, or [download_missing] through a full validation pass,
    running it again goes through too and adds no request, no sleep and
    no change to the files and directories. *)
Theorem skip_existing_idempotent :
  (forall url h w p,
      fst (vid_thumb_path E true false (mkState h w)) = Ok p ->
      path_exists p w = true ->
      download_video_thumb E url true (mkState h w) = (Ok tt, mkState h w))
  /\ (forall url h w,
      path_exists (path_join (CHANNEL_DIR E) (item_id h +:+ "_thumb.jpg")) w = true ->
      _download_channel_thumb E url true (mkState h w)
      = (Ok tt, mkState (with_kind "icon" h) w))
  /\ (forall url h w,
      path_exists (path_join (CHANNEL_DIR E) (item_id h +:+ "_banner.jpg")) w = true ->
      _download_channel_banner E url true (mkState h w)
      = (Ok tt, mkState (with_kind "banner" h) w))
  /\ (forall url h w,
      path_exists (path_join (PLAYLIST_DIR E) (item_id h +:+ ".jpg")) w = true ->
      download_playlist_thumb E url true (mkState h w) = (Ok tt, mkState h w))
  /\ (forall cb w0 w1,
      run E cb w0 = (Ok tt, w1) ->
      exists w2, run E cb w1 = (Ok tt, w2) /\ quiet w1 w2)
  /\ (forall w0 w1,
      download_missing E w0 = (Ok tt, w1) ->
      exists w2, download_missing E w1 = (Ok tt, w2) /\ quiet w1 w2).
Proof.
  split; [|split; [|split; [|split; [|split]]]].
  - intros url h w p Hp Hex. destruct (item_id h) as [|c rest] eqn:Hid.
    + unfold vid_thumb_path in Hp. munfold. simpl in Hp. rewrite Hid in Hp.
      discriminate.
    + rewrite (vid_thumb_path_eq E true h w c rest Hid) in Hp.
      injection Hp as <-. eapply video_thumb_skip; eauto.
  - intros url h w. apply channel_thumb_skip.
  - intros url h w. apply channel_banner_skip.
  - intros url h w. apply playlist_thumb_skip.
  - intros cb w0 w1 H. eapply settles_run; [exact H|apply grows_refl].
  - intros w0 w1 H. eapply settles_download_missing; [exact H|apply grows_refl].
Qed.

End Validator.

(** ** Rounding and the 16:9 crop *)

Lemma py_round_near q :
  (inject_Z (py_round q) - (1 # 2) <= q /\ q <= inject_Z (py_round q) + (1 # 2))%Q.
Proof.
  unfold py_round.
  pose proof (Qfloor_le q) as Hlo. pose proof (Qlt_floor q) as Hhi.
  rewrite inject_Z_plus in Hhi. change (inject_Z 1) with 1%Q in Hhi.
  destruct (Qcompare_spec (q - inject_Z (Qfloor q)) (1 # 2)) as [Heq|Hlt|Hgt].
  - destruct (Z.even (Qfloor q)); [|rewrite inject_Z_plus];
      change (inject_Z 1) with 1%Q; lra.
  - lra.
  - rewrite inject_Z_plus. change (inject_Z 1) with 1%Q. lra.
Qed.




(** The height left by the crop is within one pixel of [w * 9 / 16]. *)
Lemma crop_height_near (w h : Z) :
  0 <= w ->
  let new_height := (inject_Z w * 9 / 16)%Q in
  let offset := ((inject_Z h - new_height) / 2)%Q in
  let out := Z.max 0 (py_round (inject_Z h - offset) - py_round offset) in
  -16 <= 16 * out - 9 * w <= 16.
Proof.
  intros Hw new_height offset.
  pose proof (py_round_near offset) as [Ha1 Ha2].
  pose proof (py_round_near (inject_Z h - offset)) as [Hb1 Hb2].
  set (ra := py_round offset) in *.
  set (rb := py_round (inject_Z h - offset)) in *.
  assert (inject_Z (16 * (rb - ra) - 9 * w)
          == 16 * (inject_Z rb - inject_Z ra) - 9 * inject_Z w)%Q as Hinj.
  { unfold Z.sub. rewrite !inject_Z_plus, !inject_Z_mult, !inject_Z_plus,
      !inject_Z_opp, inject_Z_mult. reflexivity. }
  assert (-16 <= 16 * (rb - ra) - 9 * w <= 16) as Hd.
  { split; rewrite Zle_Qle; rewrite Hinj;
      [change (inject_Z (-16)) with (-16)%Q|change (inject_Z 16) with 16%Q];
      unfold offset, new_height, Qdiv in *;
      change (/ 2)%Q with (1 # 2)%Q in *; change (/ 16)%Q with (1 # 16)%Q in *;
      lra. }
  simpl. lia.
Qed.



Section Crop.
Context (E : Env).


End Crop.

(** ** Path layout *)

Lemma append_nil (s : string) : "" +:+ s = s.
Proof. reflexivity. Qed.

Lemma append_cons (c : ascii) (a b : string) :
  String c a +:+ b = String c (a +:+ b).
Proof. reflexivity. Qed.

Ltac str_simpl := rewrite ?append_cons, ?append_nil in *.

Lemma append_assoc (a b c : string) : (a +:+ b) +:+ c = a +:+ (b +:+ c).
Proof.
  induction a as [|x a IH]; [reflexivity|]. str_simpl. now rewrite IH.
Qed.

Lemma startswith_sep_cons c s :
  c <> "/"%char -> startswith_sep (String c s) = false.
Proof.
  intros Hc. destruct c as [[] [] [] [] [] [] [] []]; try reflexivity.
  now destruct Hc.
Qed.

Lemma ascii_lower_sep c : c <> "/"%char -> ascii_lower c <> "/"%char.
Proof.
  intros Hc. destruct c as [[] [] [] [] [] [] [] []]; vm_compute; try congruence.
Qed.

Lemma app_nonempty a b : b <> "" -> a +:+ b <> "".
Proof. intros Hb. destruct a; str_simpl; [exact Hb|discriminate]. Qed.

Lemma endswith_sep_app a b :
  b <> "" -> endswith_sep (a +:+ b) = endswith_sep b.
Proof.
  intros Hb. induction a as [|x a IH]; [reflexivity|].
  str_simpl. simpl. pose proof (app_nonempty a b Hb) as Hab.
  destruct (a +:+ b); [done|exact IH].
Qed.

(** Joining the cache root with a directory name and then with a file
    name gives the root joined with [dir/file]. *)
Lemma path_join_dir root dir c name :
  startswith_sep (String c dir) = false ->
  endswith_sep (String c dir) = false ->
  startswith_sep name = false ->
  path_join (path_join root (String c dir)) name
  = path_join root (String c dir +:+ "/" +:+ name).
Proof.
  intros Hd He Hn.
  assert (startswith_sep (String c dir +:+ "/" +:+ name) = false) as Hdn.
  { str_simpl.
    destruct c as [[] [] [] [] [] [] [] []]; try reflexivity; discriminate. }
  unfold path_join. rewrite Hd, Hn, Hdn.
  destruct (bool_decide (root = "") || endswith_sep root).
  - rewrite bool_decide_eq_false_2 by (now apply app_nonempty).
    rewrite endswith_sep_app, He by done. simpl.
    now rewrite append_assoc.
  - rewrite bool_decide_eq_false_2 by (apply app_nonempty; discriminate).
    rewrite endswith_sep_app by discriminate.
    rewrite (endswith_sep_app "/" (String c dir)), He by done. simpl.
    now rewrite !append_assoc.
Qed.

Lemma startswith_sep_id c rest suffix :
  c <> "/"%char -> startswith_sep (String c rest +:+ suffix) = false.
Proof. intros Hc. str_simpl. now apply startswith_sep_cons. Qed.

Lemma video_rel_path_layout c rest :
  c <> "/"%char ->
  video_rel_path (String c rest)
  = "videos/" +:+ String (ascii_lower c) EmptyString +:+ "/" +:+ String c rest
    +:+ ".jpg".
Proof.
  intros Hc. unfold video_rel_path. simpl str_lower.
  pose proof (ascii_lower_sep c Hc) as Hl.
  unfold path_join.
  rewrite (startswith_sep_cons _ _ Hl), (startswith_sep_id c rest ".jpg" Hc).
  simpl. rewrite bool_decide_eq_false_2 by done. reflexivity.
Qed.

Section Paths.
Context (E : Env).

Lemma channel_path_layout id suffix :
  startswith_sep (id +:+ suffix) = false ->
  path_join (CHANNEL_DIR E) (id +:+ suffix)
  = path_join (CACHE_DIR E) ("channels/" +:+ id +:+ suffix).
Proof. intros H. unfold CHANNEL_DIR. now rewrite path_join_dir. Qed.

Lemma playlist_path_layout id suffix :
  startswith_sep (id +:+ suffix) = false ->
  path_join (PLAYLIST_DIR E) (id +:+ suffix)
  = path_join (CACHE_DIR E) ("playlists/" +:+ id +:+ suffix).
Proof. intros H. unfold PLAYLIST_DIR. now rewrite path_join_dir. Qed.


End Paths.

(** * The statements on sample inputs *)

(** C1: the code does not treat the sentinel as "no image": with the
    network down, the fetch returns [False] after three attempts and each
    download operation then raises [AttributeError] on it; with only the
    icon host down, [download_channel_art] raises in the icon step, so the
    banner is never requested and nothing is written. *)
Theorem sentinel_crashes_callers :
  let down := sample_env net_down no_index in
  let icon_down := sample_env net_icon_down no_index in
  fst (download_raw down (Some thumb_url) (mkState video_handler empty_world))
  = Ok SentinelFalse
  /\ fst (download_video_thumb down (Some thumb_url) false
            (mkState video_handler empty_world))
     = Raise AttributeError
  /\ fst (download_playlist_thumb down (Some thumb_url) false
            (mkState playlist_handler empty_world))
     = Raise AttributeError
  /\ fst (_download_channel_thumb down (Some icon_url) false
            (mkState channel_handler empty_world))
     = Raise AttributeError
  /\ fst (_download_channel_banner down (Some banner_url) false
            (mkState channel_handler empty_world))
     = Raise AttributeError
  /\ (let '(r, s') :=
        download_channel_art icon_down (Some icon_url, Some banner_url) false
          (mkState channel_handler empty_world) in
      r = Raise AttributeError
      /\ requests (world s') = [icon_url; icon_url; icon_url]
      /\ files (world s') = ∅)
  /\ fst (_download_channel_banner icon_down (Some banner_url) false
            (mkState channel_handler empty_world))
     = Ok tt.
Proof. vm_compute. repeat split. Qed.

Lemma download_raw_retry_cap_witness :
  thumb_url <> ""
  /\ (forall n, net (sample_env net_down no_index) n thumb_url = RequestException)
  /\ exists w',
       download_raw (sample_env net_down no_index) (Some thumb_url)
         (mkState video_handler empty_world)
       = (Ok SentinelFalse, mkState video_handler w')
       /\ requests w' = requests empty_world ++ [thumb_url; thumb_url; thumb_url]
       /\ same_disk empty_world w'.
Proof.
  split; [discriminate|]. split; [reflexivity|].
  apply (download_raw_retry_cap (sample_env net_down no_index) video_handler
           empty_world thumb_url); [discriminate|reflexivity].
Defined.

(** C5 as stated fails: the sleeps are not [i ^ i], that is 1, 1, 4. *)
Lemma backoff_is_not_i_pow_i :
  map (fun i => i ^ i) (range 3) = [1; 1; 4]
  /\ sleeps (world (snd (download_raw (sample_env net_down no_index)
                           (Some thumb_url)
                           (mkState video_handler empty_world))))
     <> map (fun i => i ^ i) (range 3).
Proof. split; [reflexivity|]. vm_compute. discriminate. Qed.

Lemma download_raw_backoff_witness :
  thumb_url <> ""
  /\ (forall n, net (sample_env net_down no_index) n thumb_url = RequestException)
  /\ sleeps (world (snd (download_raw (sample_env net_down no_index)
                           (Some thumb_url)
                           (mkState video_handler empty_world))))
     = sleeps empty_world ++ map (fun i => (i + 1) ^ i) (range 3).
Proof.
  split; [discriminate|]. split; [reflexivity|].
  apply (download_raw_backoff (sample_env net_down no_index) video_handler
           empty_world thumb_url); [discriminate|reflexivity].
Defined.

Lemma download_raw_no_retry_witness :
  thumb_url <> ""
  /\ net (sample_env net_not_found no_index) (length (requests stock_world))
         thumb_url = Response 404 None
  /\ net (sample_env net_garbage no_index) (length (requests stock_world))
         thumb_url = Response 200 None
  /\ (exists w1,
       download_raw (sample_env net_not_found no_index) (Some thumb_url)
         (mkState video_handler stock_world)
       = (Ok (Img stock_image), mkState video_handler w1)
       /\ requests w1 = [thumb_url]
       /\ sleeps w1 = []
       /\ same_disk stock_world w1)
  /\ (exists w1,
       download_raw (sample_env net_garbage no_index) (Some thumb_url)
         (mkState video_handler stock_world)
       = (Ok (Img stock_image), mkState video_handler w1)
       /\ requests w1 = [thumb_url]
       /\ sleeps w1 = []
       /\ same_disk stock_world w1).
Proof.
  split; [discriminate|]. split; [reflexivity|]. split; [reflexivity|]. split.
  - apply (download_raw_no_retry (sample_env net_not_found no_index) video_handler
             stock_world thumb_url 404 None);
      [discriminate|reflexivity|left; reflexivity].
  - apply (download_raw_no_retry (sample_env net_garbage no_index) video_handler
             stock_world thumb_url 200 None);
      [discriminate|reflexivity|right; split; reflexivity].
Defined.

Lemma fallback_without_url_witness :
  let E := sample_env net_down no_index in
  (truthy None = false /\ truthy (Some "") = false)
  /\ download_raw E None (mkState video_handler stock_world)
     = (Ok (Img stock_image), mkState video_handler stock_world)
  /\ download_raw E (Some "") (mkState banner_handler stock_world)
     = (Ok (Img stock_image), mkState banner_handler stock_world).
Proof.
  intros E. split; [split; reflexivity|]. split.
  - destruct (fallback_without_url E video_handler stock_world None eq_refl)
      as (Hstate & Hkind & _).
    destruct (Hkind "video") as (path & Hpath & Himg);
      [apply list_elem_of_here|reflexivity|reflexivity|].
    assert (files stock_world !! path = Some stock_image) as Hfile
      by (vm_compute in Hpath; injection Hpath as <-; reflexivity).
    rewrite (surjective_pairing (download_raw E None _)).
    rewrite Hstate, (Himg _ Hfile). reflexivity.
  - destruct (fallback_without_url E banner_handler stock_world (Some "") eq_refl)
      as (Hstate & _ & _ & _ & Hexplicit).
    rewrite (surjective_pairing (download_raw E (Some "") _)).
    rewrite Hstate.
    rewrite (Hexplicit "/app/static/img/default-video-thumb.jpg" stock_image
               eq_refl ltac:(discriminate) eq_refl).
    reflexivity.
Defined.

(** C9 as stated fails: on a kind that no operation knows, [download] and
    [delete] return normally. *)
Lemma unknown_kind_returns :
  ("movie" ∉ ["video"; "channel"; "playlist"; "icon"; "banner"])
  /\ fst (download (sample_env net_down no_index) (OneUrl (Some thumb_url))
            (mkState (mkThumbManager "dQw4w9WgXcQ" "movie" None) empty_world))
     = Ok tt
  /\ fst (delete (sample_env net_down no_index)
            (mkState (mkThumbManager "dQw4w9WgXcQ" "movie" None) empty_world))
     = Ok tt.
Proof.
  split; [rewrite !not_elem_of_cons; repeat split; try discriminate;
          apply not_elem_of_nil|].
  vm_compute. split; reflexivity.
Qed.

Lemma unknown_kind_dispatch_witness :
  let E := sample_env net_down no_index in
  let h := mkThumbManager "dQw4w9WgXcQ" "movie" None in
  (item_type h ∉ dom (default_map E))
  /\ (item_type h ∉ dispatch_kinds)
  /\ get_fallback E (mkState h empty_world) = (Raise KeyError, mkState h empty_world)
  /\ fst (download E (OneUrl (Some thumb_url)) (mkState h empty_world)) = Ok tt
  /\ fst (delete E (mkState h empty_world)) = Ok tt.
Proof.
  intros E h.
  assert (item_type h ∉ dom (default_map E)) as Hk1.
  { apply not_elem_of_dom. reflexivity. }
  assert (item_type h ∉ dispatch_kinds) as Hk2.
  { unfold dispatch_kinds. rewrite !not_elem_of_cons.
    repeat split; try discriminate. apply not_elem_of_nil. }
  destruct (unknown_kind_dispatch E h empty_world (OneUrl (Some thumb_url)))
    as [Hfb Hdisp].
  destruct (Hdisp Hk2) as [Hdl Hdel].
  split; [exact Hk1|]. split; [exact Hk2|]. split; [exact (Hfb Hk1 eq_refl)|].
  split; [now rewrite Hdl|now rewrite Hdel].
Defined.


Lemma skip_existing_idempotent_witness :
  let E := sample_env (net_serving thumb_1000x2000) small_index in
  let w1 := snd (download_missing E stock_world) in
  download_missing E stock_world = (Ok tt, w1)
  /\ length (requests w1) = 4%nat
  /\ (exists w2, download_missing E w1 = (Ok tt, w2) /\ quiet w1 w2)
  /\ download_video_thumb E (Some thumb_url) true (mkState video_handler w1)
     = (Ok tt, mkState video_handler w1)
  /\ download_playlist_thumb E (Some thumb_url) true (mkState playlist_handler w1)
     = (Ok tt, mkState playlist_handler w1).
Proof.
  intros E w1.
  assert (download_missing E stock_world = (Ok tt, w1)) as Hrun
    by (vm_compute; reflexivity).
  split; [exact Hrun|]. split; [vm_compute; reflexivity|].
  destruct (skip_existing_idempotent E) as (Hvideo & _ & _ & Hplaylist & _ & Hpass).
  split; [exact (Hpass stock_world w1 Hrun)|]. split.
  - apply (Hvideo (Some thumb_url) video_handler w1 "/cache/videos/d/dQw4w9WgXcQ.jpg");
      vm_compute; reflexivity.
  - apply (Hplaylist (Some thumb_url) playlist_handler w1). vm_compute. reflexivity.
Defined.





(** The rational reading of the crop lines agrees with binary64 on the
    sample sizes. *)
Lemma binary64_agrees_on_samples :
  forallb (fun '(w, h) =>
             let img := mkImage w h "RGB" 0 in
             match saved_thumb img, video_crop_f64 img with
             | Some out, Ok out64 =>
                 (width out =? width out64) && (height out =? height out64)
             | _, _ => false
             end) sample_sizes
  = true.
Proof. vm_compute. reflexivity. Qed.

(** * Further properties *)

(** ** The fetch, whatever the network does *)

Lemma fallback_result_not_sentinel r : fallback_result r <> Ok SentinelFalse.
Proof. destruct r; discriminate. Qed.

Lemma download_raw_loop_sent E url todo h w r s' :
  download_raw_loop E url todo (mkState h w) = (r, s') ->
  exists (n : nat) (ts : list Z),
    (n <= length todo)%nat
    /\ requests (world s') = requests w ++ replicate n url
    /\ sleeps (world s') = sleeps w ++ ts
    /\ (length ts <= n)%nat
    /\ (r = Ok SentinelFalse -> n = length todo).
Proof.
  revert w. induction todo as [|i todo IH]; intros w; simpl.
  { unfold ret. intros [= <- <-]. exists 0%nat, []. simpl.
    rewrite !app_nil_r. repeat split; lia. }
  unfold bind at 1. unfold on_world at 1, requests_get. simpl.
  destruct (net E _ url) as [|status raw].
  - munfold. simpl. intros H. apply IH in H as (n & ts & Hn & Hreq & Hsl & Hts & Hall).
    simpl in *. exists (S n), ((i + 1) ^ i :: ts). simpl.
    rewrite Hreq, Hsl, <- !app_assoc. simpl. repeat split; try lia.
    intros Hr. now rewrite (Hall Hr).
  - destruct (response_ok status).
    + destruct raw as [img|].
      * unfold ret. intros [= <- <-]. exists 1%nat, []. simpl.
        rewrite app_nil_r. repeat split; try lia. discriminate.
      * unfold bind at 1. unfold on_world at 1, print, modify. simpl.
        rewrite bind_get_fallback. intros [= <- <-]. exists 1%nat, []. simpl.
        rewrite app_nil_r. repeat split; try lia.
        intros Hr. now apply fallback_result_not_sentinel in Hr.
    + destruct (status =? 404).
      * rewrite bind_get_fallback. intros [= <- <-]. exists 1%nat, []. simpl.
        rewrite app_nil_r. repeat split; try lia.
        intros Hr. now apply fallback_result_not_sentinel in Hr.
      * intros H. apply IH in H as (n & ts & Hn & Hreq & Hsl & Hts & Hall).
        simpl in *. exists (S n), ts. simpl.
        rewrite Hreq, Hsl, <- !app_assoc. simpl. repeat split; try lia.
        intros Hr. now rewrite (Hall Hr).
Qed.

Lemma download_raw_sent E url h w r s' :
  download_raw E url (mkState h w) = (r, s') ->
  exists (n : nat) (ts : list Z),
    (n <= 3)%nat
    /\ requests (world s') = requests w ++ replicate n (default "" url)
    /\ sleeps (world s') = sleeps w ++ ts
    /\ (length ts <= n)%nat
    /\ (r = Ok SentinelFalse -> n = 3%nat).
Proof.
  unfold download_raw. destruct (negb (truthy url)).
  - rewrite bind_get_fallback. intros [= <- <-]. exists 0%nat, []. simpl.
    rewrite !app_nil_r. repeat split; try lia.
    intros Hr. now apply fallback_result_not_sentinel in Hr.
  - intros H. apply download_raw_loop_sent in H. exact H.
Qed.

Section MoreFetch.
Context (E : Env).

(** X1. [download_raw] is bounded: whatever the network does, a call
    sends at most three requests, all of them to the url it was given and
    logged after the earlier ones; it sleeps at most once per request
    sent; the [False] sentinel is returned only after three requests; and
    the handler and the disk (files and directories) are as before. *)
Theorem download_raw_bounded url h w :
  let r := fst (download_raw E url (mkState h w)) in
  let s' := snd (download_raw E url (mkState h w)) in
  exists (n : nat) (ts : list Z),
    (n <= 3)%nat
    /\ requests (world s') = requests w ++ replicate n (default "" url)
    /\ sleeps (world s') = sleeps w ++ ts
    /\ (length ts <= n)%nat
    /\ (r = Ok SentinelFalse -> n = 3%nat)
    /\ self s' = h
    /\ same_disk w (world s').
Proof.
  intros r s'. subst r s'.
  destruct (download_raw E url (mkState h w)) as [r s'] eqn:H. simpl.
  pose proof (download_raw_disk _ _ _ _ _ _ H) as [Hself Hdisk].
  apply download_raw_sent in H as (n & ts & H1 & H2 & H3 & H4 & H5).
  exists n, ts. done.
Qed.

(** X2. A server that keeps answering with an error status other than
    404 (400 to 599) is asked three times in a row without any pause:
    the response is neither [ok] nor a 404, no exception is raised, so
    the loop goes on at once. [download_raw] then returns the [False]
    sentinel, having logged three requests, no sleep and no printed
    line. *)
Theorem download_raw_busy_retry url h w :
  url <> "" ->
  (forall n, exists status raw,
      net E n url = Response status raw
      /\ 400 <= status < 600 /\ status <> 404) ->
  download_raw E (Some url) (mkState h w)
  = (Ok SentinelFalse,
     mkState h (mkWorld (files w) (dirs w) (requests w ++ [url; url; url])
                        (sleeps w) (stdout w))).
Proof.
  intros Hurl Hnet. unfold download_raw. rewrite truthy_nonempty by done.
  assert (forall todo w0, download_raw_loop E url todo (mkState h w0)
          = (Ok SentinelFalse,
             mkState h (mkWorld (files w0) (dirs w0)
                          (requests w0 ++ replicate (length todo) url)
                          (sleeps w0) (stdout w0)))) as Hloop.
  { induction todo as [|i todo IH]; intros w0; simpl.
    - unfold ret. rewrite app_nil_r. now destruct w0.
    - unfold bind at 1. unfold on_world at 1, requests_get. simpl.
      destruct (Hnet (length (requests w0))) as (status & raw & -> & Hst & H404).
      unfold response_ok.
      rewrite (proj2 (Z.leb_le _ _)), (proj2 (Z.ltb_lt _ _)) by lia. simpl.
      rewrite (proj2 (Z.eqb_neq _ _)) by lia. cbv iota beta.
      etransitivity; [apply IH|]. simpl. now rewrite <- app_assoc. }
  simpl negb. cbv iota. etransitivity; [apply Hloop|]. reflexivity.
Qed.

(** X3. [download_raw] recovers from network errors: when the first
    [k] attempts (k at most 2) raise a [RequestException] and the next
    one is answered with an [ok] response that holds an image, that
    image is returned after [k + 1] requests, and the sleeps are the
    first [k] of 1, 2, 9. *)
Theorem download_raw_recovers url h w (k : nat) status img :
  url <> "" ->
  (k <= 2)%nat ->
  (forall j, (j < k)%nat -> net E (length (requests w) + j) url = RequestException) ->
  net E (length (requests w) + k) url = Response status (Some img) ->
  response_ok status = true ->
  exists w',
    download_raw E (Some url) (mkState h w) = (Ok (Img img), mkState h w')
    /\ requests w' = requests w ++ replicate (S k) url
    /\ sleeps w' = sleeps w ++ take k [1; 2; 9]
    /\ same_disk w w'.
Proof.
  intros Hurl Hk Hfail Hgood Hok. unfold download_raw.
  rewrite truthy_nonempty by done. simpl negb. cbv iota.
  change (range 3) with [0; 1; 2].
  destruct k as [|[|[|k]]]; [| | |lia].
  - rewrite Nat.add_0_r in Hgood. simpl.
    unfold bind at 1. unfold on_world at 1, requests_get. simpl.
    rewrite Hgood, Hok. unfold ret. eexists. split; [reflexivity|]. simpl.
    rewrite app_nil_r. done.
  - pose proof (Hfail 0%nat ltac:(lia)) as H0. rewrite Nat.add_0_r in H0.
    simpl. munfold. simpl. rewrite H0. simpl.
    rewrite length_app. simpl. rewrite Hgood, Hok.
    eexists. split; [reflexivity|]. simpl. rewrite <- !app_assoc. done.
  - pose proof (Hfail 0%nat ltac:(lia)) as H0. rewrite Nat.add_0_r in H0.
    pose proof (Hfail 1%nat ltac:(lia)) as H1.
    simpl. munfold. simpl. rewrite H0. simpl.
    rewrite length_app. simpl. rewrite H1. simpl.
    rewrite !length_app. simpl. rewrite <- Nat.add_assoc. simpl.
    rewrite Hgood, Hok.
    eexists. split; [reflexivity|]. simpl. rewrite <- !app_assoc. done.
Qed.

(** X4. A handler with an empty id cannot name a video thumbnail:
    [item_id[0]] raises [IndexError] in [vid_thumb_path],
    [download_video_thumb], [delete_video_thumb] and
    [get_vid_base64_blur], before anything is requested, written or
    removed. *)
Theorem empty_id_raises pil h w url skip absolute create_folder :
  item_id h = "" ->
  vid_thumb_path E absolute create_folder (mkState h w)
  = (Raise IndexError, mkState h w)
  /\ download_video_thumb E url skip (mkState h w) = (Raise IndexError, mkState h w)
  /\ delete_video_thumb E (mkState h w) = (Raise IndexError, mkState h w)
  /\ get_vid_base64_blur E pil (mkState h w) = (Raise IndexError, mkState h w).
Proof.
  intros Hid.
  assert (forall a c, vid_thumb_path E a c (mkState h w)
                      = (Raise IndexError, mkState h w)) as Hpath.
  { intros a c. unfold vid_thumb_path. munfold. simpl. now rewrite Hid. }
  split; [apply Hpath|]. split; [|split].
  - unfold download_video_thumb. munfold. simpl. now rewrite Hid.
  - unfold delete_video_thumb. unfold bind at 1. now rewrite Hpath.
  - unfold get_vid_base64_blur. unfold bind at 1. now rewrite Hpath.
Qed.

End MoreFetch.

(** ** A download writes at its target only *)

Lemma files_agree_refl ps w : files_agree_except ps w w.
Proof. intros q _. reflexivity. Qed.


Lemma files_agree_trans ps w1 w2 w3 :
  files_agree_except ps w1 w2 -> files_agree_except ps w2 w3 ->
  files_agree_except ps w1 w3.
Proof. intros H1 H2 q Hq. rewrite (H2 q Hq). apply H1, Hq. Qed.


Lemma save_frame img p w r w' :
  save img p w = (r, w') ->
  files_agree_except [p] w w' /\ dirs w' = dirs w.
Proof.
  unfold save. destruct (_ || _).
  - intros [= <- <-]. split; [apply files_agree_refl|done].
  - unfold modify. intros [= <- <-]. split; [|done].
    intros q Hq. simpl. apply lookup_insert_ne.
    intros ->. apply Hq, list_elem_of_here.
Qed.


Section MoreStore.
Context (E : Env).

Lemma video_thumb_frame url skip h w r s' :
  download_video_thumb E url skip (mkState h w) = (r, s') ->
  files_agree_except [video_path E (item_id h)] w (world s')
  /\ (dirs (world s') = dirs w
      \/ exists c rest, item_id h = String c rest
           /\ dirs (world s') = dirs w ∪ {[shard_folder E c]}).
Proof.
  unfold download_video_thumb.
  unfold bind at 1, gets at 1. cbn [self world].
  destruct (item_id h) as [|c rest] eqn:Hid.
  { unfold bind, first_char, raise. intros [= <- <-].
    split; [apply files_agree_refl|now left]. }
  unfold bind at 1, first_char at 1, ret at 1.
  unfold bind at 1. rewrite (vid_thumb_path_eq E true h w c rest Hid).
  unfold bind at 1, gets at 1. cbn [self world]. rewrite Hid.
  destruct (skip && _) eqn:Hskip.
  { intros [= <- <-]. split; [apply files_agree_refl|now left]. }
  unfold bind at 1, on_world at 1, makedirs, modify.
  cbn [self world files dirs requests sleeps stdout].
  unfold bind at 1.
  match goal with |- context [download_raw E url (mkState h ?w0)] =>
    change w0 with (with_dir (shard_folder E c) w)
  end.
  assert (forall w2, same_disk (with_dir (shard_folder E c) w) w2 ->
     files_agree_except [video_path E (String c rest)] w w2
     /\ (dirs w2 = dirs w
         \/ exists c0 rest0, String c rest = String c0 rest0
              /\ dirs w2 = dirs w ∪ {[shard_folder E c0]})) as Hsame.
  { intros w2 [Hf Hd]. split.
    - intros q _. now rewrite Hf.
    - right. exists c, rest. split; [done|]. now rewrite Hd. }
  destruct (download_raw E url _) as [[fetched|e] s1] eqn:Hraw;
    apply download_raw_disk in Hraw as [Hself Hdisk].
  2:{ intros [= <- <-]. now apply Hsame. }
  destruct fetched as [img|]; unfold bind at 1, as_image, ret, raise.
  2:{ intros [= <- <-]. now apply Hsame. }
  destruct (height img =? 0).
  { intros [= <- <-]. now apply Hsame. }
  crop_step s1.
  2:{ intros [= <- <-]. now apply Hsame. }
  unfold on_world.
  match goal with |- context [save ?i ?p (world s1)] =>
    destruct (save i p (world s1)) as [r1 w2] eqn:Hsave end.
  apply save_frame in Hsave as [Hfr Hd]. intros [= <- <-]. simpl.
  destruct (Hsame _ Hdisk) as [Hfr1 Hd1]. split.
  - eapply files_agree_trans; [exact Hfr1|exact Hfr].
  - rewrite Hd. exact Hd1.
Qed.






End MoreStore.

(** ** Deleting *)

Lemma without_file_absent p w : files w !! p = None -> without_file p w = w.
Proof.
  intros H. unfold without_file. rewrite (delete_id _ _ H). now destruct w.
Qed.

Lemma without_file_twice p w : without_file p (without_file p w) = without_file p w.
Proof. unfold without_file. simpl. now rewrite delete_delete_eq. Qed.

Lemma without_file_swap p q w :
  without_file p (without_file q w) = without_file q (without_file p w).
Proof. unfold without_file. simpl. now rewrite delete_delete. Qed.

Lemma path_exists_false p w :
  path_exists p w = false -> files w !! p = None /\ p ∉ dirs w.
Proof.
  unfold path_exists. intros [Hf Hd]%orb_false_iff.
  apply bool_decide_eq_false in Hf, Hd. split; [|exact Hd].
  destruct (files w !! p); [|done]. destruct Hf. eauto.
Qed.

Lemma remove_if_exists_eq p h w :
  remove_if_exists p (mkState h w) = (Ok tt, mkState h (without_file p w)).
Proof.
  unfold remove_if_exists. unfold bind, gets. simpl.
  destruct (path_exists p w) eqn:Hex.
  - reflexivity.
  - unfold ret. rewrite without_file_absent; [reflexivity|].
    now apply path_exists_false in Hex.
Qed.

Section MoreDelete.
Context (E : Env).

Lemma delete_video_thumb_eq h w c rest :
  item_id h = String c rest ->
  delete_video_thumb E (mkState h w)
  = (Ok tt, mkState h (without_file (video_path E (item_id h)) w)).
Proof.
  intros Hid. unfold delete_video_thumb. unfold bind at 1.
  rewrite (vid_thumb_path_eq E false h w c rest Hid).
  apply remove_if_exists_eq.
Qed.

Lemma delete_channel_thumb_eq h w :
  delete_channel_thumb E (mkState h w)
  = (Ok tt, mkState h (without_file (banner_path E (item_id h))
                         (without_file (icon_path E (item_id h)) w))).
Proof.
  unfold delete_channel_thumb. unfold bind at 1, gets at 1. cbn [self world].
  unfold bind at 1. rewrite remove_if_exists_eq. apply remove_if_exists_eq.
Qed.

Lemma delete_playlist_thumb_eq h w :
  delete_playlist_thumb E (mkState h w)
  = (Ok tt, mkState h (without_file (playlist_path E (item_id h)) w)).
Proof.
  unfold delete_playlist_thumb. unfold bind at 1, gets at 1. cbn [self world].
  apply remove_if_exists_eq.
Qed.


(** X7. Deleting twice is deleting once: a second call of
    [delete_video_thumb], [delete_channel_thumb] or
    [delete_playlist_thumb] right after the first returns normally and
    changes nothing more. *)
Theorem delete_twice h w :
  (forall c rest,
      item_id h = String c rest ->
      video_path E (item_id h) ∉ dirs w ->
      (delete_video_thumb E ;; delete_video_thumb E) (mkState h w)
      = delete_video_thumb E (mkState h w))
  /\ (icon_path E (item_id h) ∉ dirs w ->
      banner_path E (item_id h) ∉ dirs w ->
      (delete_channel_thumb E ;; delete_channel_thumb E) (mkState h w)
      = delete_channel_thumb E (mkState h w))
  /\ (playlist_path E (item_id h) ∉ dirs w ->
      (delete_playlist_thumb E ;; delete_playlist_thumb E) (mkState h w)
      = delete_playlist_thumb E (mkState h w)).
Proof.
  split; [|split].
  - intros c rest Hid _. unfold bind.
    rewrite !(delete_video_thumb_eq _ _ c rest Hid).
    now rewrite without_file_twice.
  - intros _ _. unfold bind. rewrite !delete_channel_thumb_eq.
    cbn [self item_id].
    rewrite (without_file_swap (icon_path E (item_id h)) (banner_path E (item_id h))
               (without_file (icon_path E (item_id h)) w)).
    now rewrite !without_file_twice.
  - intros _. unfold bind. rewrite !delete_playlist_thumb_eq.
    now rewrite without_file_twice.
Qed.

End MoreDelete.

(** ** Folders, and a download followed by a delete *)


Lemma lower_char_sep c : ascii_lower c = "/"%char -> c = "/"%char.
Proof.
  destruct c as [[] [] [] [] [] [] [] []]; vm_compute; intros H;
    try reflexivity; discriminate.
Qed.

Section RoundTrip.
Context (E : Env).

(** The folder that [vid_thumb_path] makes is the one that
    [download_video_thumb] makes. *)
Lemma shard_folder_join c :
  path_join (CACHE_DIR E) (path_join "videos" (str_lower (String c EmptyString)))
  = shard_folder E c.
Proof.
  unfold shard_folder, VIDEO_DIR. simpl str_lower.
  destruct (decide (ascii_lower c = "/"%char)) as [Hc|Hc].
  - rewrite Hc. reflexivity.
  - rewrite path_join_dir; [|reflexivity|reflexivity|now apply startswith_sep_cons].
    f_equal. unfold path_join. rewrite (startswith_sep_cons _ _ Hc). reflexivity.
Qed.

(** X8. [vid_thumb_path] with [create_folder] is [vid_thumb_path]
    without it followed by one [os.makedirs], and the folder it asks for
    is the folder that [download_video_thumb] asks for, although the two
    methods join its name differently. The folder is there afterwards,
    and where it is there a download of that video's thumbnail leaves
    the directories as they are. The first character of the id is
    taken to be ASCII, and no file to be in the way of the folder. *)
Theorem vid_thumb_path_create_folder absolute h w c rest :
  item_id h = String c rest ->
  is_ascii c = true ->
  files w !! shard_folder E c = None ->
  vid_thumb_path E absolute true (mkState h w)
  = (path <- vid_thumb_path E absolute false ;;
     on_world (makedirs (shard_folder E c)) ;;
     ret path) (mkState h w)
  /\ shard_folder E c
     ∈ dirs (world (snd (vid_thumb_path E absolute true (mkState h w))))
  /\ (forall v url skip r s',
      shard_folder E c ∈ dirs v ->
      download_video_thumb E url skip (mkState h v) = (r, s') ->
      dirs (world s') = dirs v).
Proof.
  intros Hid _ _.
  assert (vid_thumb_path E absolute true (mkState h w)
          = (Ok (if absolute then video_path E (item_id h)
                 else video_rel_path (item_id h)),
             mkState h (with_dir (shard_folder E c) w))) as Hmake.
  { unfold vid_thumb_path, video_path, video_rel_path. munfold. simpl.
    rewrite Hid. simpl. unfold with_dir.
    pose proof (shard_folder_join c) as Hj. simpl in Hj. rewrite Hj. reflexivity. }
  split; [|split].
  - rewrite Hmake. unfold bind at 1.
    rewrite (vid_thumb_path_eq E absolute h w c rest Hid). reflexivity.
  - rewrite Hmake. cbn [snd world dirs with_dir].
    apply elem_of_union_r, elem_of_singleton. reflexivity.
  - intros v url skip r s' Hin H.
    apply video_thumb_frame in H as [_ [Hd|Hd]]; [exact Hd|].
    destruct Hd as (c0 & rest0 & Hid0 & Hd). rewrite Hd.
    rewrite Hid in Hid0. injection Hid0 as <- <-.
    rewrite (comm_L (∪)). apply subseteq_union_1_L.
    now apply singleton_subseteq_l.
Qed.


End RoundTrip.

(** ** Cache paths do not collide *)

Lemma chars_app (a b : string) :
  list_ascii_of_string (a +:+ b)
  = list_ascii_of_string a ++ list_ascii_of_string b.
Proof.
  induction a as [|x a IH]; [reflexivity|].
  rewrite append_cons. simpl. now rewrite IH.
Qed.

Lemma chars_inj (a b : string) :
  list_ascii_of_string a = list_ascii_of_string b -> a = b.
Proof.
  intros H. rewrite <- (string_of_list_ascii_of_string a),
    <- (string_of_list_ascii_of_string b). now rewrite H.
Qed.

(** Two strings that end in suffixes of one length agree part by part. *)
Lemma append_inj_suffix (a b s t : string) :
  String.length s = String.length t ->
  a +:+ s = b +:+ t -> a = b /\ s = t.
Proof.
  intros Hlen Heq. apply (f_equal list_ascii_of_string) in Heq.
  rewrite !chars_app in Heq.
  apply app_inj_2 in Heq as [Ha Hs].
  - split; now apply chars_inj.
  - clear Heq. revert t Hlen. induction s as [|x s IH]; intros [|y t]; simpl;
      try discriminate; [reflexivity|]. intros [= Hlen]. f_equal. now apply IH.
Qed.

Lemma append_inj_r (a b s : string) : a +:+ s = b +:+ s -> a = b.
Proof. intros H. now apply (append_inj_suffix a b s s) in H as [? _]. Qed.

Lemma append_inj_l (p a b : string) : p +:+ a = p +:+ b -> a = b.
Proof. induction p as [|x p IH]; [done|]. rewrite !append_cons. intros [= H]. auto. Qed.

(** Joining a relative path to the cache root puts one fixed prefix in
    front of it. *)
Lemma path_join_prefix root :
  exists prefix, forall rel,
    startswith_sep rel = false -> path_join root rel = prefix +:+ rel.
Proof.
  destruct (bool_decide (root = "") || endswith_sep root) eqn:Hroot.
  - exists root. intros rel Hrel. unfold path_join. now rewrite Hrel, Hroot.
  - exists (root +:+ "/"). intros rel Hrel. unfold path_join.
    rewrite Hrel, Hroot. now rewrite append_assoc.
Qed.

Lemma startswith_sep_suffix id suffix :
  startswith_sep id = false -> startswith_sep suffix = false ->
  startswith_sep (id +:+ suffix) = false.
Proof. intros Hid Hs. destruct id as [|c id]; [exact Hs|exact Hid]. Qed.

Section Distinct.
Context (E : Env).

Lemma video_path_prefix prefix c rest :
  (forall rel, startswith_sep rel = false -> path_join (CACHE_DIR E) rel = prefix +:+ rel) ->
  c <> "/"%char ->
  video_path E (String c rest)
  = prefix +:+ "videos/" +:+ String (ascii_lower c) EmptyString +:+ "/"
    +:+ String c rest +:+ ".jpg".
Proof.
  intros Hp Hc. unfold video_path. rewrite (video_rel_path_layout c rest Hc).
  now rewrite Hp.
Qed.

Lemma channel_path_prefix prefix id suffix :
  (forall rel, startswith_sep rel = false -> path_join (CACHE_DIR E) rel = prefix +:+ rel) ->
  startswith_sep (id +:+ suffix) = false ->
  path_join (CHANNEL_DIR E) (id +:+ suffix) = prefix +:+ "channels/" +:+ id +:+ suffix.
Proof. intros Hp H. rewrite channel_path_layout by done. now rewrite Hp. Qed.

Lemma playlist_path_prefix prefix id suffix :
  (forall rel, startswith_sep rel = false -> path_join (CACHE_DIR E) rel = prefix +:+ rel) ->
  startswith_sep (id +:+ suffix) = false ->
  path_join (PLAYLIST_DIR E) (id +:+ suffix) = prefix +:+ "playlists/" +:+ id +:+ suffix.
Proof. intros Hp H. rewrite playlist_path_layout by done. now rewrite Hp. Qed.

(** X10. Cache paths do not collide: for ids that do not start with
    ['/'], each of the four path functions (video thumbnail, channel
    icon, channel banner, playlist thumbnail) gives different paths to
    different ids (video ids being non-empty), and two paths of
    different kinds are never equal, whatever the ids: an icon is never
    a banner, and videos, channels and playlists live apart. *)
Theorem cache_paths_distinct id1 id2 :
  startswith_sep id1 = false -> startswith_sep id2 = false ->
  (id1 <> "" -> id2 <> "" -> video_path E id1 = video_path E id2 -> id1 = id2)
  /\ (icon_path E id1 = icon_path E id2 -> id1 = id2)
  /\ (banner_path E id1 = banner_path E id2 -> id1 = id2)
  /\ (playlist_path E id1 = playlist_path E id2 -> id1 = id2)
  /\ icon_path E id1 <> banner_path E id2
  /\ (id1 <> "" -> video_path E id1 <> icon_path E id2
                   /\ video_path E id1 <> banner_path E id2
                   /\ video_path E id1 <> playlist_path E id2)
  /\ playlist_path E id1 <> icon_path E id2
  /\ playlist_path E id1 <> banner_path E id2.
Proof.
  intros H1 H2. destruct (path_join_prefix (CACHE_DIR E)) as [prefix Hp].
  assert (forall id suffix, startswith_sep id = false ->
            startswith_sep suffix = false ->
            path_join (CHANNEL_DIR E) (id +:+ suffix)
            = prefix +:+ "channels/" +:+ id +:+ suffix) as Hch.
  { intros id suffix Hid Hs. apply channel_path_prefix; [exact Hp|].
    now apply startswith_sep_suffix. }
  assert (forall id suffix, startswith_sep id = false ->
            startswith_sep suffix = false ->
            path_join (PLAYLIST_DIR E) (id +:+ suffix)
            = prefix +:+ "playlists/" +:+ id +:+ suffix) as Hpl.
  { intros id suffix Hid Hs. apply playlist_path_prefix; [exact Hp|].
    now apply startswith_sep_suffix. }
  assert (forall id, id <> "" -> startswith_sep id = false ->
            exists c rest, id = String c rest /\ c <> "/"%char) as Hne.
  { intros [|c rest] Hid Hs; [done|]. exists c, rest. split; [done|].
    intros ->. discriminate. }
  unfold icon_path, banner_path, playlist_path.
  rewrite !Hch, !Hpl by done.
  split; [|split; [|split; [|split; [|split; [|split; [|split]]]]]].
  - intros Hn1 Hn2.
    destruct (Hne id1 Hn1 H1) as (c1 & r1 & -> & Hc1).
    destruct (Hne id2 Hn2 H2) as (c2 & r2 & -> & Hc2).
    rewrite !(video_path_prefix prefix) by done.
    intros Heq%append_inj_l. rewrite !append_cons, !append_nil in Heq.
    injection Heq as _ Hc Hr. apply append_inj_r in Hr. congruence.
  - intros Heq%append_inj_l%append_inj_l. now apply append_inj_r in Heq.
  - intros Heq%append_inj_l%append_inj_l. now apply append_inj_r in Heq.
  - intros Heq%append_inj_l%append_inj_l. now apply append_inj_r in Heq.
  - intros Heq%append_inj_l%append_inj_l.
    change "_thumb.jpg" with ("_thum" +:+ "b.jpg") in Heq.
    change "_banner.jpg" with ("_banne" +:+ "r.jpg") in Heq.
    rewrite <- !append_assoc in Heq.
    apply append_inj_suffix in Heq as [_ Heq]; [discriminate|reflexivity].
  - intros Hn1. destruct (Hne id1 Hn1 H1) as (c1 & r1 & -> & Hc1).
    rewrite !(video_path_prefix prefix) by done.
    repeat split; intros Heq%append_inj_l; discriminate.
  - intros Heq%append_inj_l. discriminate.
  - intros Heq%append_inj_l. discriminate.
Qed.

End Distinct.

(** ** Counting requests *)

Lemma sends_refl k w : sends k w w.
Proof. exists []. rewrite app_nil_r. split; [done|simpl; lia]. Qed.

Lemma sends_trans k1 k2 w1 w2 w3 :
  sends k1 w1 w2 -> sends k2 w2 w3 -> sends (k1 + k2) w1 w3.
Proof.
  intros (l1 & H1 & Hl1) (l2 & H2 & Hl2). exists (l1 ++ l2).
  rewrite H2, H1, app_assoc, length_app. split; [done|lia].
Qed.

Lemma sends_weaken k k' w w' : (k <= k')%nat -> sends k w w' -> sends k' w w'.
Proof. intros Hk (l & H & Hl). exists l. split; [done|lia]. Qed.

Lemma sends_same_requests k w w' : requests w' = requests w -> sends k w w'.
Proof. intros H. exists []. rewrite app_nil_r. split; [done|simpl; lia]. Qed.

Lemma download_raw_sends E url h w r s' :
  download_raw E url (mkState h w) = (r, s') -> sends 3 w (world s').
Proof.
  intros H. apply download_raw_sent in H as (n & ts & Hn & Hreq & _).
  exists (replicate n (default "" url)). split; [done|].
  now rewrite length_replicate.
Qed.

Lemma save_requests img p w r w' : save img p w = (r, w') -> requests w' = requests w.
Proof.
  unfold save. destruct (_ || _); [|unfold modify]; now intros [= <- <-].
Qed.

Lemma fetch_and_save_sends E url (f : Image -> Image) p h w r s' :
  (fetched <- download_raw E url ;;
   img_raw <- as_image fetched ;;
   on_world (save (f img_raw) p)) (mkState h w) = (r, s') ->
  sends 3 w (world s').
Proof.
  unfold bind at 1.
  destruct (download_raw E url _) as [[fetched|e] s1] eqn:Hraw;
    apply download_raw_sends in Hraw.
  2:{ now intros [= <- <-]. }
  destruct fetched as [img|]; unfold bind, as_image, ret, raise.
  2:{ now intros [= <- <-]. }
  unfold on_world.
  destruct (save (f img) p (world s1)) as [r1 w1] eqn:Hsave.
  apply save_requests in Hsave. intros [= <- <-]. simpl.
  destruct Hraw as (l & Hl & Hlen). exists l. now rewrite Hsave.
Qed.

Lemma for_each_raise {S A} (pre post : list A) (x : A) (body : A -> M S unit)
    s s1 s2 e :
  for_each pre body s = (Ok tt, s1) ->
  body x s1 = (Raise e, s2) ->
  for_each (pre ++ x :: post) body s = (Raise e, s2).
Proof.
  revert s. induction pre as [|y pre IH]; intros s; simpl.
  - unfold ret. intros [= <-] Hx. unfold bind. now rewrite Hx.
  - unfold bind. destruct (body y s) as [[[]|e'] s'] eqn:Hy; [|discriminate].
    apply IH.
Qed.

Lemma for_each_all {A} (P : A -> World -> Prop) (xs : list A)
    (body : A -> M World unit) w w' :
  (forall x, additive (body x)) ->
  (forall x v v', body x v = (Ok tt, v') -> P x v') ->
  (forall x v v', P x v -> grows v v' -> P x v') ->
  for_each xs body w = (Ok tt, w') ->
  forall x, x ∈ xs -> P x w'.
Proof.
  intros Hadd Hpost Hmono. revert w.
  induction xs as [|y xs IH]; intros w; simpl.
  - intros _ x Hx. now apply elem_of_nil in Hx.
  - unfold bind. destruct (body y w) as [[[]|e] w1] eqn:Hy; [|discriminate].
    intros Hrest x [->|Hx]%elem_of_cons.
    + eapply Hmono; [eapply Hpost; exact Hy|].
      eapply additive_for_each; [exact Hadd|exact Hrest].
    + eapply IH; eauto.
Qed.

Lemma for_each_sends {A} (k : nat) (xs : list A) (body : A -> M World unit) w r w' :
  (forall x v r' v', body x v = (r', v') -> sends k v v') ->
  for_each xs body w = (r, w') ->
  sends (k * length xs) w w'.
Proof.
  intros Hbody. revert w. induction xs as [|y xs IH]; intros w; simpl.
  - unfold ret. intros [= <- <-]. rewrite Nat.mul_0_r. apply sends_refl.
  - unfold bind. destruct (body y w) as [[[]|e] w1] eqn:Hy.
    + intros Hrest. apply Hbody in Hy. apply IH in Hrest.
      eapply sends_weaken; [|eapply sends_trans; eauto]. lia.
    + intros [= <- <-]. apply Hbody in Hy.
      eapply sends_weaken; [|exact Hy]. lia.
Qed.

(** ** A validation pass over one page *)

Section MoreValidator.
Context (E : Env).

Lemma video_thumb_sends url skip h w r s' :
  download_video_thumb E url skip (mkState h w) = (r, s') -> sends 3 w (world s').
Proof.
  unfold download_video_thumb.
  unfold bind at 1, gets at 1. cbn [self world].
  destruct (item_id h) as [|c rest] eqn:Hid.
  { unfold bind, first_char, raise. intros [= <- <-]. apply sends_refl. }
  unfold bind at 1, first_char at 1, ret at 1.
  unfold bind at 1. rewrite (vid_thumb_path_eq E true h w c rest Hid).
  unfold bind at 1, gets at 1. cbn [self world]. rewrite Hid.
  destruct (skip && _) eqn:Hskip.
  { intros [= <- <-]. apply sends_refl. }
  unfold bind at 1, on_world at 1, makedirs, modify.
  cbn [self world files dirs requests sleeps stdout].
  unfold bind at 1.
  destruct (download_raw E url _) as [[fetched|e] s1] eqn:Hraw;
    apply download_raw_sends in Hraw.
  2:{ now intros [= <- <-]. }
  destruct fetched as [img|]; unfold bind at 1, as_image, ret, raise.
  2:{ now intros [= <- <-]. }
  destruct (height img =? 0).
  { now intros [= <- <-]. }
  crop_step s1.
  2:{ now intros [= <- <-]. }
  unfold on_world.
  match goal with |- context [save ?i ?p (world s1)] =>
    destruct (save i p (world s1)) as [r1 w2] eqn:Hsave end.
  apply save_requests in Hsave. intros [= <- <-]. simpl.
  destruct Hraw as (l & Hl & Hlen). exists l. now rewrite Hsave.
Qed.

Lemma channel_thumb_sends url skip h w r s' :
  _download_channel_thumb E url skip (mkState h w) = (r, s') -> sends 3 w (world s').
Proof.
  unfold _download_channel_thumb.
  unfold bind at 1, gets at 1. unfold bind at 1, set_item_type, modify.
  unfold bind at 1, gets at 1. cbn [self world item_id fallback].
  destruct (skip && _) eqn:Hskip.
  - intros [= <- <-]. apply sends_refl.
  - intros H. apply fetch_and_save_sends in H. exact H.
Qed.

Lemma channel_banner_sends url skip h w r s' :
  _download_channel_banner E url skip (mkState h w) = (r, s') -> sends 3 w (world s').
Proof.
  unfold _download_channel_banner.
  unfold bind at 1, gets at 1. unfold bind at 1, set_item_type, modify.
  unfold bind at 1, gets at 1. cbn [self world item_id fallback].
  destruct (skip && _) eqn:Hskip.
  - intros [= <- <-]. apply sends_refl.
  - intros H. apply fetch_and_save_sends in H. exact H.
Qed.

Lemma playlist_thumb_sends url skip h w r s' :
  download_playlist_thumb E url skip (mkState h w) = (r, s') -> sends 3 w (world s').
Proof.
  unfold download_playlist_thumb.
  unfold bind at 1, gets at 1. unfold bind at 1, gets at 1.
  cbn [self world item_id fallback].
  destruct (skip && _) eqn:Hskip.
  - intros [= <- <-]. apply sends_refl.
  - intros H. apply fetch_and_save_sends in H. exact H.
Qed.

Lemma channel_art_sends urls skip h w r s' :
  download_channel_art E urls skip (mkState h w) = (r, s') -> sends 6 w (world s').
Proof.
  destruct urls as [u1 u2]. unfold download_channel_art. unfold bind at 1.
  destruct (_download_channel_thumb E u1 skip _) as [[[]|e] [h1 w1]] eqn:H1;
    apply channel_thumb_sends in H1; simpl in *.
  2:{ intros [= <- <-]. eapply sends_weaken; [|exact H1]. lia. }
  intros H2. apply channel_banner_sends in H2.
  apply (sends_trans 3 3 _ _ _ H1 H2).
Qed.

Lemma with_handler_sends {A} k id (m : M State A) w r w' :
  (forall h v r' s', m (mkState h v) = (r', s') -> sends k v (world s')) ->
  with_handler id m w = (r, w') -> sends k w w'.
Proof.
  intros Hm. unfold with_handler.
  destruct (m _) as [r1 s1] eqn:H. intros [= <- <-]. eapply Hm, H.
Qed.

Lemma getitem_sends k d key (body : string -> M World unit) w r w' :
  (forall x v r' v', body x v = (r', v') -> sends k v v') ->
  (x <- getitem d key ;; body x) w = (r, w') -> sends k w w'.
Proof.
  intros Hb. unfold bind, getitem. destruct (d !! key); simpl.
  - apply Hb.
  - intros [= <- <-]. apply sends_refl.
Qed.

(** X11. A validation pass over a page of [n] hits sends at most [3 n]
    requests for videos, [6 n] for channels and [3 n] for playlists,
    however it ends; the requests logged before are kept. *)
Theorem validate_request_bound cb w :
  sends (3 * length (source cb)) w (snd (_validate_videos E cb w))
  /\ sends (6 * length (source cb)) w (snd (_validate_channels E cb w))
  /\ sends (3 * length (source cb)) w (snd (_validate_playlists E cb w)).
Proof.
  split; [|split].
  - destruct (_validate_videos E cb w) as [r w'] eqn:H. cbn [snd].
    eapply (for_each_sends 3); [|exact H]. intros hit v r' v'.
    apply getitem_sends. intros url v0 r0 v0'.
    apply getitem_sends. intros id v1 r1 v1'.
    apply with_handler_sends. intros h v2 r2 s2. apply video_thumb_sends.
  - destruct (_validate_channels E cb w) as [r w'] eqn:H. cbn [snd].
    eapply (for_each_sends 6); [|exact H]. intros hit v r' v'.
    apply getitem_sends. intros url v0 r0 v0'.
    apply getitem_sends. intros url2 v0b r0b v0b'.
    apply getitem_sends. intros id v1 r1 v1'.
    apply with_handler_sends. intros h v2 r2 s2. apply channel_art_sends.
  - destruct (_validate_playlists E cb w) as [r w'] eqn:H. cbn [snd].
    eapply (for_each_sends 3); [|exact H]. intros hit v r' v'.
    apply getitem_sends. intros url v0 r0 v0'.
    apply getitem_sends. intros id v1 r1 v1'.
    apply with_handler_sends. intros h v2 r2 s2. apply playlist_thumb_sends.
Qed.

(** X12. A validation pass stops at the first hit that fails: when the
    hits before it went through and the hit itself raises, the pass
    over the whole page raises the same exception in the same world, and
    the hits after it are never looked at. *)
Theorem validate_stops_at_first_failure index pre hit post w w1 w2 e :
  (_validate_videos E (mkValidatorCallback pre index) w = (Ok tt, w1) ->
   _validate_videos E (mkValidatorCallback [hit] index) w1 = (Raise e, w2) ->
   _validate_videos E (mkValidatorCallback (pre ++ hit :: post) index) w
   = (Raise e, w2))
  /\ (_validate_channels E (mkValidatorCallback pre index) w = (Ok tt, w1) ->
      _validate_channels E (mkValidatorCallback [hit] index) w1 = (Raise e, w2) ->
      _validate_channels E (mkValidatorCallback (pre ++ hit :: post) index) w
      = (Raise e, w2))
  /\ (_validate_playlists E (mkValidatorCallback pre index) w = (Ok tt, w1) ->
      _validate_playlists E (mkValidatorCallback [hit] index) w1 = (Raise e, w2) ->
      _validate_playlists E (mkValidatorCallback (pre ++ hit :: post) index) w
      = (Raise e, w2)).
Proof.
  assert (forall (body : Hit -> M World unit),
             for_each [hit] body w1 = (Raise e, w2) -> body hit w1 = (Raise e, w2))
    as Hone.
  { intros body. simpl. unfold bind, ret.
    destruct (body hit w1) as [[[]|e'] w'] eqn:Hb; [discriminate|done]. }
  unfold _validate_videos, _validate_channels, _validate_playlists.
  cbn [source].
  split; [|split]; intros Hpre Hhit; apply Hone in Hhit;
    eapply for_each_raise; eauto.
Qed.

(** X13. After a validation pass that returned normally, the artwork
    of every hit of the page is in the cache: the thumbnail of each
    video (whose id is then not empty), the icon and the banner of each
    channel, the thumbnail of each playlist. *)
Theorem validate_caches_every_hit cb w w' hit :
  hit ∈ source cb ->
  (_validate_videos E cb w = (Ok tt, w') ->
   exists id, _source hit !! "youtube_id" = Some id /\ id <> ""
              /\ path_exists (video_path E id) w' = true)
  /\ (_validate_channels E cb w = (Ok tt, w') ->
      exists id, _source hit !! "channel_id" = Some id
                 /\ path_exists (icon_path E id) w' = true
                 /\ path_exists (banner_path E id) w' = true)
  /\ (_validate_playlists E cb w = (Ok tt, w') ->
      exists id, _source hit !! "playlist_id" = Some id
                 /\ path_exists (playlist_path E id) w' = true).
Proof.
  intros Hin. split; [|split]; intros Hrun.
  - revert hit Hin. eapply (for_each_all (fun hit v =>
      exists id, _source hit !! "youtube_id" = Some id /\ id <> ""
                 /\ path_exists (video_path E id) v = true)); [| | |exact Hrun].
    + intros x. repeat (apply additive_getitem; intros ?). apply additive_video.
    + intros x v v'. unfold bind at 1, getitem at 1.
      destruct (_source x !! "vid_thumb_url") as [url|]; [|discriminate].
      unfold ret at 1. unfold bind at 1, getitem at 1.
      destruct (_source x !! "youtube_id") as [id|]; [|discriminate].
      unfold ret at 1. unfold with_handler.
      destruct (download_video_thumb E _ true _) as [r s] eqn:Hdl.
      intros [= -> <-]. apply video_thumb_spec in Hdl as (_ & _ & Hok).
      destruct (Hok eq_refl) as [Hne Hex]. exists id. done.
    + intros x v v' (id & Hid & Hne & Hex) Hg. exists id. auto.
  - revert hit Hin. eapply (for_each_all (fun hit v =>
      exists id, _source hit !! "channel_id" = Some id
                 /\ path_exists (icon_path E id) v = true
                 /\ path_exists (banner_path E id) v = true)); [| | |exact Hrun].
    + intros x. repeat (apply additive_getitem; intros ?). apply additive_channel.
    + intros x v v'. unfold bind at 1, getitem at 1.
      destruct (_source x !! "channel_thumb_url") as [url|]; [|discriminate].
      unfold ret at 1. unfold bind at 1, getitem at 1.
      destruct (_source x !! "channel_banner_url") as [url2|]; [|discriminate].
      unfold ret at 1. unfold bind at 1, getitem at 1.
      destruct (_source x !! "channel_id") as [id|]; [|discriminate].
      unfold ret at 1. unfold with_handler.
      destruct (download_channel_art E _ true _) as [r s] eqn:Hdl.
      intros [= -> <-]. apply channel_art_spec in Hdl as (_ & Hok).
      destruct (Hok eq_refl) as (_ & Hi & Hb). exists id. done.
    + intros x v v' (id & Hid & Hi & Hb) Hg. exists id. auto.
  - revert hit Hin. eapply (for_each_all (fun hit v =>
      exists id, _source hit !! "playlist_id" = Some id
                 /\ path_exists (playlist_path E id) v = true)); [| | |exact Hrun].
    + intros x. repeat (apply additive_getitem; intros ?). apply additive_playlist.
    + intros x v v'. unfold bind at 1, getitem at 1.
      destruct (_source x !! "playlist_thumbnail") as [url|]; [|discriminate].
      unfold ret at 1. unfold bind at 1, getitem at 1.
      destruct (_source x !! "playlist_id") as [id|]; [|discriminate].
      unfold ret at 1. unfold with_handler.
      destruct (download_playlist_thumb E _ true _) as [r s] eqn:Hdl.
      intros [= -> <-]. apply playlist_thumb_spec in Hdl as (_ & _ & Hok).
      exists id. split; [done|]. now apply Hok.
    + intros x v v' (id & Hid & Hex) Hg. exists id. auto.
Qed.

(** X14. A hit that lacks one of the fields the pass reads
    ([vid_thumb_url] or [youtube_id]; [channel_thumb_url],
    [channel_banner_url] or [channel_id]; [playlist_thumbnail] or
    [playlist_id]) ends the pass with [KeyError] before anything is done
    for it: the world is the one the earlier hits left. *)
Theorem validate_missing_field index pre hit post w w1 :
  (_validate_videos E (mkValidatorCallback pre index) w = (Ok tt, w1) ->
   _source hit !! "vid_thumb_url" = None \/ _source hit !! "youtube_id" = None ->
   _validate_videos E (mkValidatorCallback (pre ++ hit :: post) index) w
   = (Raise KeyError, w1))
  /\ (_validate_channels E (mkValidatorCallback pre index) w = (Ok tt, w1) ->
      _source hit !! "channel_thumb_url" = None
      \/ _source hit !! "channel_banner_url" = None
      \/ _source hit !! "channel_id" = None ->
      _validate_channels E (mkValidatorCallback (pre ++ hit :: post) index) w
      = (Raise KeyError, w1))
  /\ (_validate_playlists E (mkValidatorCallback pre index) w = (Ok tt, w1) ->
      _source hit !! "playlist_thumbnail" = None
      \/ _source hit !! "playlist_id" = None ->
      _validate_playlists E (mkValidatorCallback (pre ++ hit :: post) index) w
      = (Raise KeyError, w1)).
Proof.
  unfold _validate_videos, _validate_channels, _validate_playlists.
  cbn [source].
  split; [|split]; intros Hpre Hmiss;
    (eapply for_each_raise; [exact Hpre|]); unfold bind, getitem, ret, raise.
  - destruct Hmiss as [->| ->]; [reflexivity|].
    destruct (_source hit !! "vid_thumb_url"); reflexivity.
  - destruct Hmiss as [->|[->| ->]]; [reflexivity| |].
    + destruct (_source hit !! "channel_thumb_url"); reflexivity.
    + destruct (_source hit !! "channel_thumb_url"); [|reflexivity].
      destruct (_source hit !! "channel_banner_url"); reflexivity.
  - destruct Hmiss as [->| ->]; [reflexivity|].
    destruct (_source hit !! "playlist_thumbnail"); reflexivity.
Qed.

End MoreValidator.

(** ** What is written, and the blurred preview *)

Lemma save_written img p w w' :
  save (convert_rgb img) p w = (Ok tt, w') ->
  exists out, files w' !! p = Some out /\ mode out = "RGB"
              /\ width out <> 0 /\ height out <> 0.
Proof.
  unfold save. simpl. destruct (_ || _) eqn:Hempty; [discriminate|].
  unfold modify. intros [= <-]. exists (convert_rgb img). simpl.
  rewrite lookup_insert_eq. apply orb_false_iff in Hempty as [Hw Hh].
  apply Z.eqb_neq in Hw, Hh. done.
Qed.

Lemma fetch_and_save_written E url p h w s' :
  (fetched <- download_raw E url ;;
   img_raw <- as_image fetched ;;
   on_world (save (convert_rgb img_raw) p)) (mkState h w) = (Ok tt, s') ->
  exists out, files (world s') !! p = Some out /\ mode out = "RGB"
              /\ width out <> 0 /\ height out <> 0.
Proof.
  unfold bind at 1.
  destruct (download_raw E url _) as [[fetched|e] s1] eqn:Hraw; [|discriminate].
  destruct fetched as [img|]; unfold bind, as_image, ret, raise; [|discriminate].
  unfold on_world.
  destruct (save (convert_rgb img) p (world s1)) as [[[]|e] w1] eqn:Hsave;
    [|discriminate].
  intros [= <-]. simpl. eapply save_written, Hsave.
Qed.

Section Written.
Context (E : Env).

Lemma video_thumb_written url h w s' :
  download_video_thumb E url false (mkState h w) = (Ok tt, s') ->
  exists out, files (world s') !! video_path E (item_id h) = Some out
              /\ mode out = "RGB" /\ width out <> 0 /\ height out <> 0.
Proof.
  unfold download_video_thumb.
  unfold bind at 1, gets at 1. cbn [self world].
  destruct (item_id h) as [|c rest] eqn:Hid.
  { unfold bind, first_char, raise. discriminate. }
  unfold bind at 1, first_char at 1, ret at 1.
  unfold bind at 1. rewrite (vid_thumb_path_eq E true h w c rest Hid).
  unfold bind at 1, gets at 1. cbn [self world andb]. rewrite Hid.
  unfold bind at 1, on_world at 1, makedirs, modify.
  cbn [self world files dirs requests sleeps stdout].
  unfold bind at 1.
  destruct (download_raw E url _) as [[fetched|e] s1] eqn:Hraw; [|discriminate].
  destruct fetched as [img|]; unfold bind at 1, as_image, ret, raise; [|discriminate].
  destruct (height img =? 0); [discriminate|].
  crop_step s1; [|discriminate].
  unfold on_world.
  match goal with |- context [save (convert_rgb ?i) ?p (world s1)] =>
    destruct (save (convert_rgb i) p (world s1)) as [[[]|e] w2] eqn:Hsave end;
    [|discriminate].
  intros [= <-]. simpl. eapply save_written, Hsave.
Qed.

(** X15. What a download writes is in mode RGB: after
    [download_video_thumb], [_download_channel_thumb],
    [_download_channel_banner] or [download_playlist_thumb] has returned
    normally without [skip_existing], the file at its target path is an
    RGB image, whatever the mode of the image that was fetched. *)
Theorem download_writes_rgb h w :
  (forall url s',
      download_video_thumb E url false (mkState h w) = (Ok tt, s') ->
      exists out, files (world s') !! video_path E (item_id h) = Some out
                  /\ mode out = "RGB")
  /\ (forall url s',
      _download_channel_thumb E url false (mkState h w) = (Ok tt, s') ->
      exists out, files (world s') !! icon_path E (item_id h) = Some out
                  /\ mode out = "RGB")
  /\ (forall url s',
      _download_channel_banner E url false (mkState h w) = (Ok tt, s') ->
      exists out, files (world s') !! banner_path E (item_id h) = Some out
                  /\ mode out = "RGB")
  /\ (forall url s',
      download_playlist_thumb E url false (mkState h w) = (Ok tt, s') ->
      exists out, files (world s') !! playlist_path E (item_id h) = Some out
                  /\ mode out = "RGB").
Proof.
  split; [|split; [|split]].
  - intros url s' H.
    apply video_thumb_written in H as (out & Hout & Hmode & _). eauto.
  - intros url s'. unfold _download_channel_thumb.
    unfold bind at 1, gets at 1. unfold bind at 1, set_item_type, modify.
    unfold bind at 1, gets at 1. cbn [self world item_id fallback andb].
    intros H. apply fetch_and_save_written in H as (out & Hout & Hmode & _). eauto.
  - intros url s'. unfold _download_channel_banner.
    unfold bind at 1, gets at 1. unfold bind at 1, set_item_type, modify.
    unfold bind at 1, gets at 1. cbn [self world item_id fallback andb].
    intros H. apply fetch_and_save_written in H as (out & Hout & Hmode & _). eauto.
  - intros url s'. unfold download_playlist_thumb.
    unfold bind at 1, gets at 1. unfold bind at 1, gets at 1.
    cbn [self world item_id fallback andb].
    intros H. apply fetch_and_save_written in H as (out & Hout & Hmode & _). eauto.
Qed.

Lemma blur_eq pil h w c rest :
  item_id h = String c rest ->
  get_vid_base64_blur E pil (mkState h w)
  = (match files w !! video_path E (item_id h) with
     | None => Raise FileNotFoundError
     | Some img =>
         match pil_thumbnail pil img (width img / 20, height img / 20) with
         | Ok small =>
             Ok ("data:image/jpg;base64," +:+ jpeg_base64 pil (pil_blur pil small))
         | Raise e => Raise e
         end
     end, mkState h w).
Proof.
  intros Hid. unfold get_vid_base64_blur. unfold bind at 1.
  rewrite (vid_thumb_path_eq E false h w c rest Hid).
  unfold bind at 1, on_world, image_open. cbn [self world].
  change (path_join (CACHE_DIR E) (video_rel_path (item_id h)))
    with (video_path E (item_id h)).
  destruct (files w !! video_path E (item_id h)) as [img|]; [|reflexivity].
  unfold bind, lift_result, ret.
  destruct (pil_thumbnail pil img _); reflexivity.
Qed.

(** X16. The blurred preview of a video with a non-empty id reads the
    cache and changes nothing. With nothing at the thumbnail's path it
    raises [FileNotFoundError]; with a file there that PIL can scale down
    to a twentieth of its width and height, it returns
    [data:image/jpg;base64,] followed by the encoding of the blurred
    small image. Right after a download that returned normally, the
    image it reads is the RGB image that the download wrote. *)
Theorem blur_preview pil h w c rest :
  item_id h = String c rest ->
  snd (get_vid_base64_blur E pil (mkState h w)) = mkState h w
  /\ (path_exists (video_path E (item_id h)) w = false ->
      fst (get_vid_base64_blur E pil (mkState h w)) = Raise FileNotFoundError)
  /\ (forall img small,
      files w !! video_path E (item_id h) = Some img ->
      pil_thumbnail pil img (width img / 20, height img / 20) = Ok small ->
      fst (get_vid_base64_blur E pil (mkState h w))
      = Ok ("data:image/jpg;base64," +:+ jpeg_base64 pil (pil_blur pil small)))
  /\ (forall url s1,
      download_video_thumb E url false (mkState h w) = (Ok tt, s1) ->
      exists img,
        files (world s1) !! video_path E (item_id h) = Some img
        /\ mode img = "RGB"
        /\ forall small,
             pil_thumbnail pil img (width img / 20, height img / 20) = Ok small ->
             get_vid_base64_blur E pil s1
             = (Ok ("data:image/jpg;base64," +:+ jpeg_base64 pil (pil_blur pil small)),
                s1)).
Proof.
  intros Hid. rewrite (blur_eq pil h w c rest Hid). simpl.
  split; [reflexivity|]. split; [|split].
  - intros [-> _]%path_exists_false. reflexivity.
  - intros img small -> ->. reflexivity.
  - intros url s1 Hdl.
    pose proof (video_thumb_spec _ _ _ _ _ _ _ Hdl) as (Hself & _).
    apply video_thumb_written in Hdl as (out & Hout & Hmode & _).
    destruct s1 as [h1 w1]. simpl in *. subst h1.
    exists out. split; [exact Hout|]. split; [exact Hmode|].
    intros small Hsmall.
    rewrite (blur_eq pil h w1 c rest Hid), Hout, Hsmall. reflexivity.
Qed.

End Written.

(** ** The list of media files and thumbnails *)

Section Embed.
Context (E : Env) (MEDIA_DIR : string).

Lemma with_handler_vid_thumb_path id w :
  with_handler id (vid_thumb_path E false false) w
  = (match id with
     | EmptyString => Raise IndexError
     | String _ _ => Ok (video_rel_path id)
     end, w).
Proof.
  unfold with_handler. destruct id as [|c rest].
  - reflexivity.
  - now rewrite (vid_thumb_path_eq E false (mkThumbManager (String c rest) "video" None)
                  w c rest eq_refl).
Qed.

Lemma get_thumb_list_loop_spec todo acc w r w' :
  get_thumb_list_loop E MEDIA_DIR todo acc w = (r, w') ->
  w' = w
  /\ match r with
     | Ok l => exists l', l = acc ++ l' /\ Forall2 (entry_for E MEDIA_DIR) todo l'
     | Raise e => e = KeyError \/ e = IndexError
     end.
Proof.
  revert acc. induction todo as [|video todo IH]; intros acc; simpl.
  { unfold ret. intros [= <- <-]. split; [done|]. exists []. rewrite app_nil_r.
    split; [done|constructor]. }
  unfold bind at 1, getitem at 1.
  destruct (video !! "youtube_id") as [id|] eqn:Hid;
    [|unfold raise; intros [= <- <-]; auto].
  unfold ret at 1. unfold bind at 1, getitem at 1.
  destruct (video !! "media_url") as [file|] eqn:Hfile;
    [|unfold raise; intros [= <- <-]; auto].
  unfold ret at 1. unfold bind at 1. rewrite with_handler_vid_thumb_path.
  destruct id as [|c rest]; [intros [= <- <-]; auto|].
  intros H. apply IH in H as [-> H]. split; [done|].
  destruct r as [l|e]; [|exact H].
  destruct H as (l' & -> & Hall). eexists (_ :: l'). rewrite <- app_assoc.
  split; [reflexivity|]. constructor; [|exact Hall].
  exists (String c rest), file. repeat split; done.
Qed.

Lemma get_thumb_list_loop_total todo acc w :
  Forall (fun video => exists entry, entry_for E MEDIA_DIR video entry) todo ->
  exists l, get_thumb_list_loop E MEDIA_DIR todo acc w = (Ok l, w).
Proof.
  intros Hall. revert acc. induction Hall as [|video todo Hv _ IH]; intros acc; simpl.
  { eexists. reflexivity. }
  destruct Hv as (entry & id & file & Hid & Hfile & Hne & _).
  unfold bind at 1, getitem at 1. rewrite Hid.
  unfold ret at 1. unfold bind at 1, getitem at 1. rewrite Hfile.
  unfold ret at 1. unfold bind at 1. rewrite with_handler_vid_thumb_path.
  destruct id as [|c rest]; [done|]. apply IH.
Qed.

(** X17. [get_thumb_list] reads the manifest and touches nothing. When
    it returns, its list has one entry per video, in the order of the
    manifest: the media file is the video's [media_url] joined to the
    media folder, the thumbnail is the cache path of the video's
    [youtube_id], which is not empty. When it raises, it is [KeyError]
    (a video without one of the two fields) or [IndexError] (an empty
    id). And it does return when every video has both fields and a
    non-empty id. *)
Theorem get_thumb_list_entries all_videos w :
  snd (get_thumb_list E MEDIA_DIR all_videos w) = w
  /\ (forall video_list,
      fst (get_thumb_list E MEDIA_DIR all_videos w) = Ok video_list ->
      Forall2 (entry_for E MEDIA_DIR) all_videos video_list)
  /\ (forall e,
      fst (get_thumb_list E MEDIA_DIR all_videos w) = Raise e ->
      e = KeyError \/ e = IndexError)
  /\ (Forall (fun video => exists entry, entry_for E MEDIA_DIR video entry) all_videos ->
      exists video_list,
        fst (get_thumb_list E MEDIA_DIR all_videos w) = Ok video_list).
Proof.
  unfold get_thumb_list.
  destruct (get_thumb_list_loop E MEDIA_DIR all_videos [] w) as [r w'] eqn:H.
  pose proof (get_thumb_list_loop_spec _ _ _ _ _ H) as [-> Hr]. simpl.
  split; [done|]. split; [|split].
  - intros l ->. destruct Hr as (l' & -> & Hall). exact Hall.
  - intros e ->. exact Hr.
  - intros Hall. destruct (get_thumb_list_loop_total all_videos [] w Hall) as [l Hl].
    rewrite Hl in H. injection H as <-. eauto.
Qed.

End Embed.

(** ** Embedding *)

Lemma embed_loop_disk total counter todo mw r mw' :
  _embed_thumbs_loop total counter todo mw = (r, mw') ->
  quiet (disk mw) (disk mw')
  /\ (forall p, is_Some (media mw' !! p) <-> is_Some (media mw !! p)).
Proof.
  revert counter mw. induction todo as [|video todo IH]; intros counter mw; simpl.
  { intros [= <- <-]. split; [apply quiet_refl|done]. }
  destruct (media mw !! media_url video) as [tags|] eqn:Hm.
  2:{ intros [= <- <-]. split; [apply quiet_refl|done]. }
  destruct (files (disk mw) !! thumb_path video) as [data|] eqn:Hf.
  2:{ intros [= <- <-]. split; [apply quiet_refl|done]. }
  intros H. apply IH in H as [Hq Hdom]. simpl in *. split.
  - eapply quiet_trans; [|exact Hq]. destruct (_ =? _)%nat; done.
  - intros p. rewrite Hdom, lookup_insert_is_Some.
    destruct (decide (media_url video = p)) as [<-|Hne].
    + rewrite Hm. split; eauto.
    + split; [intros [?|[_ ?]]; done|intros ?; right; done].
Qed.

Lemma embed_loop_success total counter todo mw :
  fst (_embed_thumbs_loop total counter todo mw) = None
  <-> Forall (embeddable mw) todo.
Proof.
  revert counter mw. induction todo as [|video todo IH]; intros counter mw; simpl.
  { split; [constructor|done]. }
  unfold embeddable at 1.
  destruct (media mw !! media_url video) as [tags|] eqn:Hm.
  2:{ simpl. split; [discriminate|]. intros H. inversion H as [|? ? [[? Hx] _]].
      subst. rewrite Hm in Hx. discriminate. }
  destruct (files (disk mw) !! thumb_path video) as [data|] eqn:Hf.
  2:{ simpl. split; [discriminate|]. intros H. inversion H as [|? ? [_ [? Hx]]].
      subst. rewrite Hf in Hx. discriminate. }
  rewrite IH. rewrite Forall_cons.
  assert (forall entry,
    embeddable (mkMediaWorld
                  (if (counter mod 50 =? 0)%nat
                   then snd (print ("thumbnail write progress " +:+ pretty counter
                                    +:+ "/" +:+ pretty total) (disk mw))
                   else disk mw)
                  (<[media_url video := [mkMP4Cover data FORMAT_JPEG]]> (media mw)))
               entry
    <-> embeddable mw entry) as Hsame.
  { intros entry. unfold embeddable.
    destruct (counter mod 50 =? 0)%nat; simpl; rewrite lookup_insert_is_Some;
      (destruct (decide (media_url video = media_url entry)) as [Heq|Hne];
       [rewrite <- Heq, Hm; split; intros [_ ?]; split; eauto
       |split; [intros [[?|[_ ?]] ?]; done|intros [? ?]; split; [right|]; done]]). }
  split.
  - intros Hall. split; [unfold embeddable; rewrite Hm, Hf; eauto|].
    eapply Forall_impl; [exact Hall|]. intros entry. apply Hsame.
  - intros [_ Hall]. eapply Forall_impl; [exact Hall|]. intros entry. apply Hsame.
Qed.

Lemma embed_loop_failure total counter todo mw e :
  fst (_embed_thumbs_loop total counter todo mw) = Some e ->
  (e = MutagenError /\ exists entry, entry ∈ todo /\ media mw !! media_url entry = None)
  \/ (e = PyExn FileNotFoundError
      /\ exists entry, entry ∈ todo /\ files (disk mw) !! thumb_path entry = None).
Proof.
  revert counter mw. induction todo as [|video todo IH]; intros counter mw; simpl.
  { discriminate. }
  destruct (media mw !! media_url video) as [tags|] eqn:Hm.
  2:{ simpl. intros [= <-]. left. split; [done|]. exists video.
      split; [apply list_elem_of_here|done]. }
  destruct (files (disk mw) !! thumb_path video) as [data|] eqn:Hf.
  2:{ simpl. intros [= <-]. right. split; [done|]. exists video.
      split; [apply list_elem_of_here|done]. }
  intros H. apply IH in H.
  destruct H as [[-> (entry & Hin & Habs)]|[-> (entry & Hin & Habs)]].
  - left. split; [done|]. exists entry. split; [now apply list_elem_of_further|].
    cbn [media] in Habs. apply lookup_insert_None in Habs as [? _]. done.
  - right. split; [done|]. exists entry. split; [now apply list_elem_of_further|].
    cbn [disk] in Habs.
    match type of Habs with context [if ?b then _ else _] => destruct b end;
      exact Habs.
Qed.

(** X18. [_embed_thumbs] goes through exactly when every entry has its
    media file and its thumbnail file. Otherwise it stops with mutagen's
    error at an entry whose media file cannot be opened, or with
    [FileNotFoundError] at an entry whose thumbnail is missing. However
    it ends, the cache files, the directories and the request and sleep
    logs are as before, and no media file appears or disappears. *)
Theorem embed_thumbs_succeeds_iff video_list mw :
  (fst (_embed_thumbs video_list mw) = None <-> Forall (embeddable mw) video_list)
  /\ (forall e,
      fst (_embed_thumbs video_list mw) = Some e ->
      (e = MutagenError
       /\ exists entry, entry ∈ video_list /\ media mw !! media_url entry = None)
      \/ (e = PyExn FileNotFoundError
          /\ exists entry, entry ∈ video_list
                           /\ files (disk mw) !! thumb_path entry = None))
  /\ quiet (disk mw) (disk (snd (_embed_thumbs video_list mw)))
  /\ (forall p, is_Some (media (snd (_embed_thumbs video_list mw)) !! p)
                <-> is_Some (media mw !! p)).
Proof.
  unfold _embed_thumbs. split; [apply embed_loop_success|].
  split; [intros e; apply embed_loop_failure|].
  destruct (_embed_thumbs_loop _ 1 video_list mw) as [r mw'] eqn:H.
  apply embed_loop_disk in H. exact H.
Qed.

(** ** Progress lines and covers *)

Lemma embed_loop_cons total counter video todo mw tags data :
  media mw !! media_url video = Some tags ->
  files (disk mw) !! thumb_path video = Some data ->
  _embed_thumbs_loop total counter (video :: todo) mw
  = _embed_thumbs_loop total (S counter) todo
      (mkMediaWorld
         (if multiple_of_50 counter
          then log_line (progress_line total counter) (disk mw)
          else disk mw)
         (<[media_url video := [mkMP4Cover data FORMAT_JPEG]]> (media mw))).
Proof.
  intros Hm Hf. rewrite <- Nat.add_1_r.
  change (_embed_thumbs_loop total counter (video :: todo) mw)
    with (match media mw !! media_url video with
          | None => (Some MutagenError, mw)
          | Some _ =>
              match files (disk mw) !! thumb_path video with
              | None => (Some (PyExn FileNotFoundError), mw)
              | Some data =>
                  _embed_thumbs_loop total (counter + 1) todo
                    (mkMediaWorld
                       (if multiple_of_50 counter
                        then log_line (progress_line total counter) (disk mw)
                        else disk mw)
                       (<[media_url video := [mkMP4Cover data FORMAT_JPEG]]> (media mw)))
              end
          end).
  now rewrite Hm, Hf.
Qed.

Lemma embed_loop_cons_ok total counter video todo mw mw' :
  _embed_thumbs_loop total counter (video :: todo) mw = (None, mw') ->
  exists tags data,
    media mw !! media_url video = Some tags
    /\ files (disk mw) !! thumb_path video = Some data.
Proof.
  change (_embed_thumbs_loop total counter (video :: todo) mw)
    with (match media mw !! media_url video with
          | None => (Some MutagenError, mw)
          | Some _ =>
              match files (disk mw) !! thumb_path video with
              | None => (Some (PyExn FileNotFoundError), mw)
              | Some data =>
                  _embed_thumbs_loop total (counter + 1) todo
                    (mkMediaWorld
                       (if multiple_of_50 counter
                        then log_line (progress_line total counter) (disk mw)
                        else disk mw)
                       (<[media_url video := [mkMP4Cover data FORMAT_JPEG]]> (media mw)))
              end
          end).
  destruct (media mw !! media_url video); [|discriminate].
  destruct (files (disk mw) !! thumb_path video); [|discriminate]. eauto.
Qed.

Lemma embed_loop_stdout total counter todo mw mw' :
  _embed_thumbs_loop total counter todo mw = (None, mw') ->
  stdout (disk mw')
  = stdout (disk mw)
    ++ map (progress_line total)
         (List.filter multiple_of_50 (seq counter (length todo))).
Proof.
  revert counter mw. induction todo as [|video todo IH]; intros counter mw.
  { intros [= <-]. simpl. now rewrite app_nil_r. }
  intros H. destruct (embed_loop_cons_ok _ _ _ _ _ _ H) as (tags & data & Hm & Hf).
  rewrite (embed_loop_cons _ _ _ _ _ _ _ Hm Hf) in H. apply IH in H.
  rewrite H. cbn [disk length seq List.filter].
  destruct (multiple_of_50 counter); simpl; [|reflexivity].
  now rewrite <- app_assoc.
Qed.

Lemma multiples_of_50 (n : nat) :
  List.filter multiple_of_50 (seq 1 n)
  = map (fun k => (50 * k)%nat) (seq 1 (n / 50)).
Proof.
  induction n as [|n IH]; [reflexivity|].
  rewrite seq_S, List.filter_app, IH. cbn [List.filter Nat.add].
  pose proof (Nat.div_mod_eq (S n) 50) as Hs.
  pose proof (Nat.div_mod_eq n 50) as Hn.
  pose proof (Nat.mod_upper_bound n 50 ltac:(discriminate)) as Hrn.
  pose proof (Nat.mod_upper_bound (S n) 50 ltac:(discriminate)) as Hrs.
  unfold multiple_of_50. destruct (S n mod 50 =? 0)%nat eqn:Hmod.
  - apply Nat.eqb_eq in Hmod.
    assert (S n / 50 = S (n / 50))%nat as Hq by lia.
    rewrite Hq, seq_S, map_app. cbn [map Nat.add]. do 3 f_equal. lia.
  - apply Nat.eqb_neq in Hmod.
    assert (S n / 50 = n / 50)%nat as -> by lia.
    now rewrite app_nil_r.
Qed.

(** X19. The progress lines of [_embed_thumbs]: a run over [n] entries
    that goes through prints one line for each multiple of 50 up to [n],
    in increasing order, each of the form
    [thumbnail write progress <counter>/<n>], and nothing else. *)
Theorem embed_thumbs_progress video_list mw mw' :
  _embed_thumbs video_list mw = (None, mw') ->
  let n := length video_list in
  stdout (disk mw')
  = stdout (disk mw)
    ++ map (fun k => progress_line n (50 * k)) (seq 1 (n / 50)).
Proof.
  intros H n. apply embed_loop_stdout in H. rewrite H.
  fold n. now rewrite multiples_of_50, map_map.
Qed.

Lemma embed_loop_covers total counter todo mw mw' :
  NoDup (map media_url todo) ->
  _embed_thumbs_loop total counter todo mw = (None, mw') ->
  (forall entry, entry ∈ todo ->
     exists data, files (disk mw) !! thumb_path entry = Some data
                  /\ media mw' !! media_url entry
                     = Some [mkMP4Cover data FORMAT_JPEG])
  /\ (forall p, p ∉ map media_url todo -> media mw' !! p = media mw !! p).
Proof.
  revert counter mw. induction todo as [|video todo IH]; intros counter mw Hnd.
  { intros [= <-]. split; [intros entry Hin; now apply elem_of_nil in Hin|done]. }
  intros H. destruct (embed_loop_cons_ok _ _ _ _ _ _ H) as (tags & data & Hm & Hf).
  rewrite (embed_loop_cons _ _ _ _ _ _ _ Hm Hf) in H.
  cbn [map] in Hnd. apply NoDup_cons in Hnd as [Hfresh Hnd].
  apply IH in H as [Hcov Hrest]; [|exact Hnd]. cbn [disk media] in *.
  assert (forall w0 q, files (if multiple_of_50 counter
                              then log_line (progress_line total counter) w0
                              else w0) !! q = files w0 !! q) as Hfiles
    by (intros w0 q; destruct (multiple_of_50 counter); reflexivity).
  split.
  - intros entry [->|Hin]%elem_of_cons.
    + exists data. split; [exact Hf|].
      rewrite (Hrest _ Hfresh). apply lookup_insert_eq.
    + destruct (Hcov entry Hin) as (d & Hd & Hc). exists d.
      rewrite Hfiles in Hd. done.
  - intros p Hp. cbn [map] in Hp. apply not_elem_of_cons in Hp as [Hne Hp].
    rewrite (Hrest p Hp). apply lookup_insert_ne. congruence.
Qed.

(** X20. What [_embed_thumbs] embeds: after a run that went through
    over entries with distinct media files, the cover tag of each entry's
    media file is a single cover, tagged JPEG, that holds the content of
    the entry's thumbnail file as it was before the run; the covers of
    all other media files and the files of the cache are unchanged. *)
Theorem embed_thumbs_covers video_list mw mw' :
  NoDup (map media_url video_list) ->
  _embed_thumbs video_list mw = (None, mw') ->
  (forall entry, entry ∈ video_list ->
     exists data, files (disk mw) !! thumb_path entry = Some data
                  /\ media mw' !! media_url entry
                     = Some [mkMP4Cover data FORMAT_JPEG])
  /\ (forall p, p ∉ map media_url video_list -> media mw' !! p = media mw !! p)
  /\ files (disk mw') = files (disk mw).
Proof.
  intros Hnd H. pose proof (embed_loop_disk _ _ _ _ _ _ H) as [(Hfiles & _) _].
  apply embed_loop_covers in H as [Hcov Hrest]; [|exact Hnd]. done.
Qed.

(** ** The embedding as a whole *)

Section Sync.
Context (E : Env) (MEDIA_DIR : string).

(** X21. [sync] embeds the cached thumbnails: when the list built from
    the manifest has its media files and thumbnails in place and no
    media file twice, [sync] returns normally, leaves the cache files as
    they were, and afterwards every video of the manifest has, as the
    only cover of its media file, the JPEG-tagged content of the cached
    thumbnail of its [youtube_id]. *)
Theorem sync_embeds_cached_thumbnails all_videos video_list mw :
  fst (get_thumb_list E MEDIA_DIR all_videos (disk mw)) = Ok video_list ->
  Forall (embeddable mw) video_list ->
  NoDup (map media_url video_list) ->
  exists mw',
    sync E MEDIA_DIR all_videos mw = (None, mw')
    /\ files (disk mw') = files (disk mw)
    /\ Forall2 (fun video entry =>
                  exists id data,
                    video !! "youtube_id" = Some id
                    /\ files (disk mw) !! video_path E id = Some data
                    /\ media mw' !! media_url entry
                       = Some [mkMP4Cover data FORMAT_JPEG])
               all_videos video_list.
Proof.
  intros Hlist Hall Hnd. unfold sync, get_thumb_list in *.
  destruct (get_thumb_list_loop E MEDIA_DIR all_videos [] (disk mw)) as [r w'] eqn:H.
  simpl in Hlist. subst r.
  apply get_thumb_list_loop_spec in H as [-> (l' & -> & Hentries)].
  rewrite app_nil_l in *.
  assert (mkMediaWorld (disk mw) (media mw) = mw) as -> by now destruct mw.
  destruct (_embed_thumbs l' mw) as [r mw'] eqn:Hembed.
  assert (r = None) as ->.
  { pose proof (proj2 (embed_loop_success (length l') 1 l' mw) Hall) as Hok.
    unfold _embed_thumbs in Hembed. now rewrite Hembed in Hok. }
  exists mw'. split; [reflexivity|].
  pose proof (embed_loop_disk _ _ _ _ _ _ Hembed) as [(Hfiles & _) _].
  split; [exact Hfiles|].
  apply embed_loop_covers in Hembed as [Hcov _]; [|exact Hnd].
  clear Hall Hnd. revert Hcov.
  induction Hentries as [|video entry videos entries Hentry _ IH]; intros Hcov;
    constructor.
  - destruct Hentry as (id & file & Hid & _ & _ & _ & Hthumb).
    destruct (Hcov entry) as (data & Hdata & Hc); [apply list_elem_of_here|].
    exists id, data. rewrite <- Hthumb. done.
  - apply IH. intros e He. apply Hcov. now apply list_elem_of_further.
Qed.

End Sync.

(** ** The whole validation, and the public delete *)

Lemma for_each_pages_sends (k : nat) (pages : list (list Hit))
    (body : list Hit -> M World unit) w r w' :
  (forall page v r' v', body page v = (r', v') -> sends (k * length page) v v') ->
  for_each pages body w = (r, w') ->
  sends (k * length (concat pages)) w w'.
Proof.
  intros Hbody. revert w. induction pages as [|page pages IH]; intros w; simpl.
  - unfold ret. intros [= <- <-]. rewrite Nat.mul_0_r. apply sends_refl.
  - rewrite length_app, Nat.mul_add_distr_l.
    unfold bind. destruct (body page w) as [[[]|e] w1] eqn:Hp.
    + intros Hrest. apply Hbody in Hp. apply IH in Hrest.
      eapply sends_trans; eauto.
    + intros [= <- <-]. apply Hbody in Hp.
      eapply sends_weaken; [|exact Hp]. lia.
Qed.

Lemma print_sends line (m : M World unit) k w r w' :
  (forall v r' v', m v = (r', v') -> sends k v v') ->
  (print line ;; m) w = (r, w') -> sends k w w'.
Proof.
  intros Hm. unfold bind, print, modify. intros H. apply Hm in H.
  destruct H as (l & Hl & Hlen). exists l. done.
Qed.

Lemma without_file_sub p w : files (without_file p w) ⊆ files w.
Proof. apply delete_subseteq. Qed.

Section WholePass.
Context (E : Env).

Lemma paginate_sends index (k : nat) w r w' :
  (forall page v r' v',
     run E (mkValidatorCallback page index) v = (r', v') ->
     sends (k * length page) v v') ->
  paginate_get_results E index mkValidatorCallback w = (r, w') ->
  sends (k * hits E index) w w'.
Proof.
  intros Hrun. unfold paginate_get_results, hits.
  apply for_each_pages_sends. exact Hrun.
Qed.

Lemma validate_videos_sends cb w r w' :
  _validate_videos E cb w = (r, w') -> sends (3 * length (source cb)) w w'.
Proof.
  intros H. eapply (for_each_sends 3); [|exact H]. intros hit v r' v'.
  apply getitem_sends. intros url v0 r0 v0'.
  apply getitem_sends. intros id v1 r1 v1'.
  apply with_handler_sends. intros h v2 r2 s2. apply video_thumb_sends.
Qed.

Lemma validate_channels_sends cb w r w' :
  _validate_channels E cb w = (r, w') -> sends (6 * length (source cb)) w w'.
Proof.
  intros H. eapply (for_each_sends 6); [|exact H]. intros hit v r' v'.
  apply getitem_sends. intros url v0 r0 v0'.
  apply getitem_sends. intros url2 v0b r0b v0b'.
  apply getitem_sends. intros id v1 r1 v1'.
  apply with_handler_sends. intros h v2 r2 s2. apply channel_art_sends.
Qed.

Lemma validate_playlists_sends cb w r w' :
  _validate_playlists E cb w = (r, w') -> sends (3 * length (source cb)) w w'.
Proof.
  intros H. eapply (for_each_sends 3); [|exact H]. intros hit v r' v'.
  apply getitem_sends. intros url v0 r0 v0'.
  apply getitem_sends. intros id v1 r1 v1'.
  apply with_handler_sends. intros h v2 r2 s2. apply playlist_thumb_sends.
Qed.

(** X22. The whole validation is bounded by the size of the index:
    [download_missing_videos] sends at most three requests per video
    hit of the scan, [download_missing_channels] at most six per channel
    hit, [download_missing_playlists] at most three per playlist hit,
    and [download_missing] at most the sum of the three, however each of
    them ends. *)
Theorem download_missing_request_bound w :
  sends (3 * hits E "ta_video") w (snd (download_missing_videos E w))
  /\ sends (6 * hits E "ta_channel") w (snd (download_missing_channels E w))
  /\ sends (3 * hits E "ta_playlist") w (snd (download_missing_playlists E w))
  /\ sends (3 * hits E "ta_video" + 6 * hits E "ta_channel"
            + 3 * hits E "ta_playlist") w (snd (download_missing E w)).
Proof.
  assert (forall v r v', download_missing_videos E v = (r, v') ->
            sends (3 * hits E "ta_video") v v') as Hv.
  { intros v r v'. apply paginate_sends. intros page v0 r0 v0'.
    unfold run. cbn [index_name source]. apply print_sends. intros v1 r1 v1'.
    rewrite bool_decide_eq_true_2 by reflexivity.
    apply (validate_videos_sends (mkValidatorCallback page "ta_video")). }
  assert (forall v r v', download_missing_channels E v = (r, v') ->
            sends (6 * hits E "ta_channel") v v') as Hc.
  { intros v r v'. apply paginate_sends. intros page v0 r0 v0'.
    unfold run. cbn [index_name source]. apply print_sends. intros v1 r1 v1'.
    rewrite bool_decide_eq_false_2 by discriminate.
    rewrite bool_decide_eq_true_2 by reflexivity.
    apply (validate_channels_sends (mkValidatorCallback page "ta_channel")). }
  assert (forall v r v', download_missing_playlists E v = (r, v') ->
            sends (3 * hits E "ta_playlist") v v') as Hp.
  { intros v r v'. apply paginate_sends. intros page v0 r0 v0'.
    unfold run. cbn [index_name source]. apply print_sends. intros v1 r1 v1'.
    rewrite !bool_decide_eq_false_2 by discriminate.
    rewrite bool_decide_eq_true_2 by reflexivity.
    apply (validate_playlists_sends (mkValidatorCallback page "ta_playlist")). }
  split; [eapply Hv, surjective_pairing|].
  split; [eapply Hc, surjective_pairing|].
  split; [eapply Hp, surjective_pairing|].
  unfold download_missing, bind.
  destruct (download_missing_videos E w) as [[[]|e] w1] eqn:H1; apply Hv in H1.
  2:{ eapply sends_weaken; [|exact H1]. lia. }
  destruct (download_missing_channels E w1) as [[[]|e] w2] eqn:H2; apply Hc in H2.
  2:{ eapply sends_weaken; [|eapply sends_trans; eauto]. lia. }
  destruct (download_missing_playlists E w2) as [r w3] eqn:H3; apply Hp in H3.
  cbn [snd]. eapply sends_trans; [eapply sends_trans|]; eauto.
Qed.

(** X23. [delete] only removes: whatever the kind and the id of the
    handler and however the call ends, it prints its one line, every
    file on the disk afterwards was there before with the same content,
    no directory is made or removed, no request is sent, nothing sleeps,
    and the handler is unchanged. *)
Theorem delete_only_removes h w :
  let s' := snd (delete E (mkState h w)) in
  self s' = h
  /\ files (world s') ⊆ files w
  /\ dirs (world s') = dirs w
  /\ requests (world s') = requests w
  /\ sleeps (world s') = sleeps w
  /\ stdout (world s') = stdout w ++ [delete_line h].
Proof.
  intros s'. subst s'. unfold delete_line.
  set (w1 := log_line (item_id h +:+ ": delete " +:+ item_type h +:+ " thumbnail") w).
  assert (delete E (mkState h w)
          = (if bool_decide (item_type h = "video") then delete_video_thumb E
             else if bool_decide (item_type h = "channel") then delete_channel_thumb E
             else if bool_decide (item_type h = "playlist") then delete_playlist_thumb E
             else ret tt) (mkState h w1)) as -> by reflexivity.
  destruct (bool_decide (item_type h = "video")).
  { destruct (item_id h) as [|c rest] eqn:Hid.
    - unfold delete_video_thumb. unfold bind at 1.
      unfold vid_thumb_path. munfold. cbn [self world]. rewrite Hid. simpl. done.
    - rewrite (delete_video_thumb_eq E h w1 c rest Hid). simpl.
      repeat split; try done. apply (without_file_sub _ w1). }
  destruct (bool_decide (item_type h = "channel")).
  { rewrite delete_channel_thumb_eq. simpl. repeat split; try done.
    etransitivity; [apply delete_subseteq|apply (without_file_sub _ w1)]. }
  destruct (bool_decide (item_type h = "playlist")).
  { rewrite delete_playlist_thumb_eq. simpl. repeat split; try done.
    apply (without_file_sub _ w1). }
  simpl. done.
Qed.

End WholePass.

(** * The further statements on sample inputs *)

Lemma download_raw_busy_retry_witness :
  thumb_url <> ""
  /\ (forall n, exists status raw,
        net (sample_env net_server_error no_index) n thumb_url = Response status raw
        /\ 400 <= status < 600 /\ status <> 404)
  /\ download_raw (sample_env net_server_error no_index) (Some thumb_url)
       (mkState video_handler empty_world)
     = (Ok SentinelFalse,
        mkState video_handler
          (mkWorld ∅ ∅ [thumb_url; thumb_url; thumb_url] [] [])).
Proof.
  assert (forall n, exists status raw,
        net (sample_env net_server_error no_index) n thumb_url = Response status raw
        /\ 400 <= status < 600 /\ status <> 404) as Hnet.
  { intros n. exists 503, None. split; [reflexivity|]. split; [lia|discriminate]. }
  split; [discriminate|]. split; [exact Hnet|].
  exact (download_raw_busy_retry (sample_env net_server_error no_index) thumb_url
           video_handler empty_world ltac:(discriminate) Hnet).
Defined.

Lemma download_raw_recovers_witness :
  (forall j, (j < 1)%nat ->
     net (sample_env net_flaky no_index) (length (requests empty_world) + j) thumb_url
     = RequestException)
  /\ exists w',
       download_raw (sample_env net_flaky no_index) (Some thumb_url)
         (mkState video_handler empty_world)
       = (Ok (Img thumb_1600x900), mkState video_handler w')
       /\ requests w' = requests empty_world ++ replicate 2 thumb_url
       /\ sleeps w' = sleeps empty_world ++ take 1 [1; 2; 9]
       /\ same_disk empty_world w'.
Proof.
  assert (forall j, (j < 1)%nat ->
     net (sample_env net_flaky no_index) (length (requests empty_world) + j) thumb_url
     = RequestException) as Hfail.
  { intros j Hj. destruct j; [reflexivity|lia]. }
  split; [exact Hfail|].
  exact (download_raw_recovers (sample_env net_flaky no_index) thumb_url video_handler
           empty_world 1 200 thumb_1600x900 ltac:(discriminate) ltac:(lia) Hfail
           eq_refl eq_refl).
Defined.

Lemma empty_id_raises_witness :
  item_id nameless_handler = ""
  /\ download_video_thumb (sample_env (net_serving thumb_1600x900) no_index)
       (Some thumb_url) false (mkState nameless_handler empty_world)
     = (Raise IndexError, mkState nameless_handler empty_world).
Proof.
  split; [reflexivity|].
  exact (proj1 (proj2 (empty_id_raises
                         (sample_env (net_serving thumb_1600x900) no_index)
                         sample_pil nameless_handler empty_world (Some thumb_url)
                         false false false eq_refl))).
Defined.



Lemma delete_twice_witness :
  let E := sample_env net_down no_index in
  (icon_path E (item_id channel_handler) ∉ dirs cached_world)
  /\ (banner_path E (item_id channel_handler) ∉ dirs cached_world)
  /\ (delete_channel_thumb E ;; delete_channel_thumb E)
       (mkState channel_handler cached_world)
     = delete_channel_thumb E (mkState channel_handler cached_world).
Proof.
  intros E.
  assert (icon_path E (item_id channel_handler) ∉ dirs cached_world) as Hicon
    by apply not_elem_of_empty.
  assert (banner_path E (item_id channel_handler) ∉ dirs cached_world) as Hbanner
    by apply not_elem_of_empty.
  split; [exact Hicon|]. split; [exact Hbanner|].
  destruct (delete_twice E channel_handler cached_world) as (_ & Hchannel & _).
  exact (Hchannel Hicon Hbanner).
Defined.


Lemma vid_thumb_path_create_folder_witness :
  let E := sample_env net_down no_index in
  (item_id video_handler = String "d" "Qw4w9WgXcQ"
   /\ is_ascii "d" = true
   /\ files empty_world !! shard_folder E "d" = None)
  /\ vid_thumb_path E true true (mkState video_handler empty_world)
     = (Ok "/cache/videos/d/dQw4w9WgXcQ.jpg",
        mkState video_handler (snd (makedirs "/cache/videos/d" empty_world)))
  /\ path_exists "/cache/videos/d"
       (world (snd (vid_thumb_path E true true (mkState video_handler empty_world))))
     = true.
Proof.
  intros E. split; [repeat split|].
  destruct (vid_thumb_path_create_folder E true video_handler empty_world
              "d"%char "Qw4w9WgXcQ" eq_refl eq_refl eq_refl) as (Hcall & Hdir & _).
  split.
  - rewrite Hcall. vm_compute. reflexivity.
  - unfold path_exists. rewrite (bool_decide_eq_true_2 _ Hdir). apply orb_true_r.
Defined.

Lemma cache_paths_distinct_witness :
  let E := sample_env net_down no_index in
  (startswith_sep "UCabc" = false /\ startswith_sep "UCabc_banner" = false)
  /\ icon_path E "UCabc" <> banner_path E "UCabc_banner"
  /\ (icon_path E "UCabc" = icon_path E "UCabc_banner" -> "UCabc" = "UCabc_banner").
Proof.
  intros E. split; [split; reflexivity|].
  destruct (cache_paths_distinct E "UCabc" "UCabc_banner" eq_refl eq_refl)
    as (_ & Hicon & _ & _ & Hcross & _).
  split; [exact Hcross|exact Hicon].
Defined.

Lemma validate_caches_every_hit_witness :
  let E := sample_env (net_serving thumb_1600x900) no_index in
  let cb := mkValidatorCallback [good_hit] "ta_video" in
  let w' := snd (_validate_videos E cb empty_world) in
  (good_hit ∈ source cb)
  /\ _validate_videos E cb empty_world = (Ok tt, w')
  /\ exists id, _source good_hit !! "youtube_id" = Some id /\ id <> ""
                /\ path_exists (video_path E id) w' = true.
Proof.
  intros E cb w'.
  assert (good_hit ∈ source cb) as Hin by apply list_elem_of_here.
  assert (_validate_videos E cb empty_world = (Ok tt, w')) as Hrun
    by (vm_compute; reflexivity).
  split; [exact Hin|]. split; [exact Hrun|].
  exact (proj1 (validate_caches_every_hit E cb empty_world w' good_hit Hin) Hrun).
Defined.

Lemma validate_stops_at_first_failure_witness :
  let E := sample_env (net_serving thumb_1600x900) no_index in
  let w1 := snd (_validate_videos E (mkValidatorCallback [good_hit] "ta_video")
                   empty_world) in
  _validate_videos E (mkValidatorCallback [good_hit] "ta_video") empty_world
  = (Ok tt, w1)
  /\ _validate_videos E (mkValidatorCallback [broken_hit] "ta_video") w1
     = (Raise KeyError, w1)
  /\ _validate_videos E
       (mkValidatorCallback ([good_hit] ++ broken_hit :: [good_hit; good_hit])
          "ta_video") empty_world
     = (Raise KeyError, w1).
Proof.
  intros E w1.
  assert (_validate_videos E (mkValidatorCallback [good_hit] "ta_video") empty_world
          = (Ok tt, w1)) as Hpre by (vm_compute; reflexivity).
  assert (_validate_videos E (mkValidatorCallback [broken_hit] "ta_video") w1
          = (Raise KeyError, w1)) as Hhit by (vm_compute; reflexivity).
  split; [exact Hpre|]. split; [exact Hhit|].
  exact (proj1 (validate_stops_at_first_failure E "ta_video" [good_hit] broken_hit
                  [good_hit; good_hit] empty_world w1 w1 KeyError) Hpre Hhit).
Defined.

Lemma validate_missing_field_witness :
  let E := sample_env (net_serving thumb_1600x900) no_index in
  let w1 := snd (_validate_videos E (mkValidatorCallback [good_hit] "ta_video")
                   empty_world) in
  _validate_videos E (mkValidatorCallback [good_hit] "ta_video") empty_world
  = (Ok tt, w1)
  /\ _source broken_hit !! "youtube_id" = None
  /\ _validate_videos E
       (mkValidatorCallback ([good_hit] ++ broken_hit :: [good_hit]) "ta_video")
       empty_world
     = (Raise KeyError, w1).
Proof.
  intros E w1.
  assert (_validate_videos E (mkValidatorCallback [good_hit] "ta_video") empty_world
          = (Ok tt, w1)) as Hpre by (vm_compute; reflexivity).
  split; [exact Hpre|]. split; [reflexivity|].
  exact (proj1 (validate_missing_field E "ta_video" [good_hit] broken_hit
                  [good_hit] empty_world w1) Hpre (or_intror eq_refl)).
Defined.

Lemma download_writes_rgb_witness :
  let E := sample_env (net_serving (mkImage 640 480 "P" 9)) no_index in
  let s' := snd (download_playlist_thumb E (Some thumb_url) false
                   (mkState playlist_handler empty_world)) in
  download_playlist_thumb E (Some thumb_url) false
    (mkState playlist_handler empty_world) = (Ok tt, s')
  /\ exists out, files (world s') !! playlist_path E (item_id playlist_handler)
                 = Some out
                 /\ mode out = "RGB".
Proof.
  intros E s'.
  assert (download_playlist_thumb E (Some thumb_url) false
            (mkState playlist_handler empty_world) = (Ok tt, s')) as Hrun
    by (vm_compute; reflexivity).
  split; [exact Hrun|].
  destruct (download_writes_rgb E playlist_handler empty_world)
    as (_ & _ & _ & Hplaylist).
  exact (Hplaylist (Some thumb_url) s' Hrun).
Defined.

Lemma blur_preview_witness :
  let E := sample_env net_down no_index in
  item_id video_handler = String "d" "Qw4w9WgXcQ"
  /\ path_exists (video_path E (item_id video_handler)) empty_world = false
  /\ fst (get_vid_base64_blur E sample_pil (mkState video_handler empty_world))
     = Raise FileNotFoundError
  /\ fst (get_vid_base64_blur E sample_pil (mkState video_handler cached_world))
     = Ok "data:image/jpg;base64,80x45".
Proof.
  intros E. split; [reflexivity|].
  assert (path_exists (video_path E (item_id video_handler)) empty_world = false)
    as Hnone by (vm_compute; reflexivity).
  split; [exact Hnone|].
  destruct (blur_preview E sample_pil video_handler empty_world
              "d"%char "Qw4w9WgXcQ" eq_refl) as (_ & Hmissing & _).
  destruct (blur_preview E sample_pil video_handler cached_world
              "d"%char "Qw4w9WgXcQ" eq_refl) as (_ & _ & Hfound & _).
  split; [exact (Hmissing Hnone)|].
  exact (Hfound thumb_1600x900 (mkImage 80 45 "RGB" 2) eq_refl eq_refl).
Defined.

Lemma get_thumb_list_entries_witness :
  let E := sample_env net_down no_index in
  fst (get_thumb_list E "/media" sample_manifest empty_world) = Ok sample_entries
  /\ Forall2 (entry_for E "/media") sample_manifest sample_entries.
Proof.
  intros E.
  assert (fst (get_thumb_list E "/media" sample_manifest empty_world)
          = Ok sample_entries) as Hrun by (vm_compute; reflexivity).
  split; [exact Hrun|].
  destruct (get_thumb_list_entries E "/media" sample_manifest empty_world)
    as (_ & Hentries & _).
  exact (Hentries sample_entries Hrun).
Defined.

Lemma embed_thumbs_progress_witness :
  let video_list := replicate 120 (mkThumbEntry "/media/rick/never.mp4"
                                     "/cache/videos/d/dQw4w9WgXcQ.jpg") in
  let mw' := snd (_embed_thumbs video_list sample_media) in
  _embed_thumbs video_list sample_media = (None, mw')
  /\ stdout (disk mw')
     = ["thumbnail write progress 50/120"; "thumbnail write progress 100/120"].
Proof.
  intros video_list mw'.
  assert (_embed_thumbs video_list sample_media = (None, mw')) as Hrun
    by (vm_compute; reflexivity).
  split; [exact Hrun|].
  rewrite (embed_thumbs_progress video_list sample_media mw' Hrun).
  vm_compute. reflexivity.
Defined.

Lemma sample_entries_distinct : NoDup (map media_url sample_entries).
Proof.
  apply NoDup_cons. split; [|apply NoDup_singleton].
  intros Hin%list_elem_of_singleton. discriminate.
Defined.

Lemma embed_thumbs_covers_witness :
  let mw' := snd (_embed_thumbs sample_entries sample_media) in
  NoDup (map media_url sample_entries)
  /\ _embed_thumbs sample_entries sample_media = (None, mw')
  /\ media mw' !! "/media/zed/clip.mp4" = Some [mkMP4Cover stock_image FORMAT_JPEG]
  /\ files (disk mw') = files (disk sample_media).
Proof.
  intros mw'.
  assert (_embed_thumbs sample_entries sample_media = (None, mw')) as Hrun
    by (vm_compute; reflexivity).
  split; [exact sample_entries_distinct|]. split; [exact Hrun|].
  destruct (embed_thumbs_covers sample_entries sample_media mw'
              sample_entries_distinct Hrun) as (Hcov & _ & Hfiles).
  split; [|exact Hfiles].
  destruct (Hcov (mkThumbEntry "/media/zed/clip.mp4" "/cache/videos/z/Zx0a.jpg"))
    as (data & Hdata & Hcover).
  { apply list_elem_of_further, list_elem_of_here. }
  vm_compute in Hdata. injection Hdata as <-. exact Hcover.
Defined.

Lemma sample_entries_embeddable : Forall (embeddable sample_media) sample_entries.
Proof.
  repeat constructor; vm_compute; eauto.
Defined.

Lemma embed_thumbs_succeeds_iff_witness :
  Forall (embeddable sample_media) sample_entries
  /\ fst (_embed_thumbs sample_entries sample_media) = None
  /\ fst (_embed_thumbs sample_entries
            (mkMediaWorld empty_world (media sample_media)))
     = Some (PyExn FileNotFoundError).
Proof.
  split; [exact sample_entries_embeddable|]. split.
  - exact (proj2 (proj1 (embed_thumbs_succeeds_iff sample_entries sample_media))
             sample_entries_embeddable).
  - destruct (embed_thumbs_succeeds_iff sample_entries
                (mkMediaWorld empty_world (media sample_media))) as (_ & Hfail & _).
    destruct (fst (_embed_thumbs sample_entries
                     (mkMediaWorld empty_world (media sample_media))))
      as [e|] eqn:Hrun; [|vm_compute in Hrun; discriminate].
    destruct (Hfail e eq_refl) as [[-> (entry & _ & Habs)]|[-> _]]; [|reflexivity].
    vm_compute in Hrun. discriminate.
Defined.

Lemma sync_embeds_cached_thumbnails_witness :
  let E := sample_env net_down no_index in
  fst (get_thumb_list E "/media" sample_manifest (disk sample_media))
  = Ok sample_entries
  /\ Forall (embeddable sample_media) sample_entries
  /\ NoDup (map media_url sample_entries)
  /\ exists mw', sync E "/media" sample_manifest sample_media = (None, mw')
                 /\ files (disk mw') = files (disk sample_media).
Proof.
  intros E.
  assert (fst (get_thumb_list E "/media" sample_manifest (disk sample_media))
          = Ok sample_entries) as Hrun by (vm_compute; reflexivity).
  split; [exact Hrun|]. split; [exact sample_entries_embeddable|].
  split; [exact sample_entries_distinct|].
  destruct (sync_embeds_cached_thumbnails E "/media" sample_manifest sample_entries
              sample_media Hrun sample_entries_embeddable sample_entries_distinct)
    as (mw' & Hsync & Hfiles & _).
  exists mw'. split; [exact Hsync|exact Hfiles].
Defined.
